(** * elastinats: the NATS to Elasticsearch forwarding pipeline

    A shallow embedding of [main.go] and [elasticsearch.go]:
    - the document builder ([newPayload] followed by [json.Unmarshal]),
    - the consumer loop [consumeForever],
    - the batching loop [batchAndSend],
    - the dispatcher [sendToES] with [reconnect] and [connectToES].

    Goroutines, channels and the two external libraries (nats, elastigo) are
    modelled by their observable behaviour: a script of results for
    [sub.NextMsg], a script of results for [indexer.Index], and an event
    trace recording what the code asks of the backend. *)

From Stdlib Require Import ZArith NArith Ascii String List Lia Bool.
From stdpp Require Import base strings gmap list.
Import ListNotations.
Open Scope Z_scope.
Set Warnings "-register-all".

(** ** JSON values, as [encoding/json] stores them in an [interface{}] *)

Module Json.

(** The values of a text.  A number is kept as its literal, which is
    turned into a [float64] when the value is stored; an object is kept as
    the list of its members in the order of the text. *)
Inductive value : Type :=
  | JNull
  | JBool (b : bool)
  | JNumber (lit : string)
  | JString (s : string)
  | JArray (items : list value)
  | JObject (members : list (string * value)).

Definition dquote : ascii := ascii_of_nat 34.
Definition backslash : ascii := ascii_of_nat 92.

Definition is_ws (c : ascii) : bool :=
  let n := nat_of_ascii c in
  (n =? 32)%nat || (n =? 9)%nat || (n =? 10)%nat || (n =? 13)%nat.

Definition is_digit (c : ascii) : bool :=
  let n := nat_of_ascii c in (48 <=? n)%nat && (n <=? 57)%nat.

Fixpoint skip_ws (s : string) : string :=
  match s with
  | String c r => if is_ws c then skip_ws r else s
  | EmptyString => s
  end.

(** *** String literals *)

Definition hex_digit (c : ascii) : option N :=
  let n := N_of_ascii c in
  if ((48 <=? n) && (n <=? 57))%N then Some (n - 48)%N
  else if ((97 <=? n) && (n <=? 102))%N then Some (n - 87)%N
  else if ((65 <=? n) && (n <=? 70))%N then Some (n - 55)%N
  else None.

(** [getu4]: the code unit of a [\uXXXX] escape at the head of [s]. *)
Definition getu4 (s : string) : option (N * string) :=
  match s with
  | String b (String u (String h1 (String h2 (String h3 (String h4 r))))) =>
      if Ascii.eqb b backslash && Ascii.eqb u "u"%char then
        match hex_digit h1, hex_digit h2, hex_digit h3, hex_digit h4 with
        | Some a, Some b', Some c, Some d =>
            Some (((a * 16 + b') * 16 + c) * 16 + d, r)%N
        | _, _, _, _ => None
        end
      else None
  | _ => None
  end.

Definition replacement_char : N := 65533%N.

Definition is_surrogate (r : N) : bool := ((55296 <=? r) && (r <? 57344))%N.

(** [utf16.DecodeRune] *)
Definition decode_surrogates (r1 r2 : N) : N :=
  if ((55296 <=? r1) && (r1 <? 56320) && (56320 <=? r2) && (r2 <? 57344))%N
  then ((r1 - 55296) * 1024 + (r2 - 56320) + 65536)%N
  else replacement_char.

(** [utf8.EncodeRune] *)
Definition utf8_encode (r : N) : string :=
  let byte n := ascii_of_N n in
  (if r <? 128 then String (byte r) EmptyString
   else if r <? 2048 then
     String (byte (192 + r / 64)) (String (byte (128 + r mod 64)) EmptyString)
   else if r <? 65536 then
     String (byte (224 + r / 4096))
       (String (byte (128 + (r / 64) mod 64))
          (String (byte (128 + r mod 64)) EmptyString))
   else
     String (byte (240 + r / 262144))
       (String (byte (128 + (r / 4096) mod 64))
          (String (byte (128 + (r / 64) mod 64))
             (String (byte (128 + r mod 64)) EmptyString))))%N.

(** The one-letter escapes: quote, backslash, slash, b, f, n, r, t. *)
Definition simple_escape (c : ascii) : option ascii :=
  let n := nat_of_ascii c in
  if (n =? 34)%nat then Some dquote
  else if (n =? 92)%nat then Some backslash
  else if (n =? 47)%nat then Some "/"%char
  else if (n =? 98)%nat then Some (ascii_of_nat 8)
  else if (n =? 102)%nat then Some (ascii_of_nat 12)
  else if (n =? 110)%nat then Some (ascii_of_nat 10)
  else if (n =? 114)%nat then Some (ascii_of_nat 13)
  else if (n =? 116)%nat then Some (ascii_of_nat 9)
  else None.

Definition in_range (lo hi : N) (c : ascii) : bool :=
  ((lo <=? N_of_ascii c) && (N_of_ascii c <=? hi))%N.

(** [utf8.DecodeRune] on a first byte from 128 up: the well-formed
    sequence at the head of [s] and what follows it, or none when the bytes
    there are no well-formed encoding (a stray continuation byte, an
    overlong form, a surrogate, a value past U+10FFFF, a sequence cut
    short). *)
Definition decode_rune (s : string) : option (string * string) :=
  match s with
  | EmptyString => None
  | String b0 r0 =>
      let n0 := N_of_ascii b0 in
      if (n0 <? 194)%N then None
      else if (n0 <=? 223)%N then
        match r0 with
        | String b1 r1 =>
            if in_range 128 191 b1
            then Some (String b0 (String b1 EmptyString), r1) else None
        | EmptyString => None
        end
      else if (n0 <=? 239)%N then
        let lo := if (n0 =? 224)%N then 160%N else 128%N in
        let hi := if (n0 =? 237)%N then 159%N else 191%N in
        match r0 with
        | String b1 (String b2 r2) =>
            if in_range lo hi b1 && in_range 128 191 b2
            then Some (String b0 (String b1 (String b2 EmptyString)), r2)
            else None
        | _ => None
        end
      else if (n0 <=? 244)%N then
        let lo := if (n0 =? 240)%N then 144%N else 128%N in
        let hi := if (n0 =? 244)%N then 143%N else 191%N in
        match r0 with
        | String b1 (String b2 (String b3 r3)) =>
            if in_range lo hi b1 && in_range 128 191 b2 && in_range 128 191 b3
            then Some (String b0 (String b1 (String b2 (String b3 EmptyString))),
                       r3)
            else None
        | _ => None
        end
      else None
  end.

(** The body of a string literal, after its opening quote, as [unquote]
    gives it: escapes are resolved and the bytes are coerced to well-formed
    UTF-8, every byte that starts no well-formed sequence becoming
    U+FFFD. *)
Fixpoint string_body (fuel : nat) (s : string) : option (string * string) :=
  match fuel with
  | O => None
  | S fuel =>
      match s with
      | EmptyString => None
      | String c r =>
          if Ascii.eqb c dquote then Some (EmptyString, r)
          else if Ascii.eqb c backslash then
            match r with
            | EmptyString => None
            | String e r' =>
                if Ascii.eqb e "u"%char then
                  match getu4 s with
                  | None => None
                  | Some (rr, r1) =>
                      let '(rune, rest) :=
                        if is_surrogate rr then
                          match getu4 r1 with
                          | Some (rr1, r2) =>
                              let dec := decode_surrogates rr rr1 in
                              if (dec =? replacement_char)%N
                              then (replacement_char, r1)
                              else (dec, r2)
                          | None => (replacement_char, r1)
                          end
                        else (rr, r1) in
                      match string_body fuel rest with
                      | Some (t, k) => Some (utf8_encode rune +:+ t, k)
                      | None => None
                      end
                  end
                else
                  match simple_escape e with
                  | None => None
                  | Some x =>
                      match string_body fuel r' with
                      | Some (t, k) => Some (String x t, k)
                      | None => None
                      end
                  end
            end
          else if (nat_of_ascii c <? 32)%nat then None
          else if (nat_of_ascii c <? 128)%nat then
            match string_body fuel r with
            | Some (t, k) => Some (String c t, k)
            | None => None
            end
          else
            let '(bytes, rest) :=
              match decode_rune s with
              | Some (bytes, rest) => (bytes, rest)
              | None => (utf8_encode replacement_char, r)
              end in
            match string_body fuel rest with
            | Some (t, k) => Some (bytes +:+ t, k)
            | None => None
            end
      end
  end.

(** *** Number literals *)

Fixpoint digits (s : string) : string * string :=
  match s with
  | String c r =>
      if is_digit c then let '(d, k) := digits r in (String c d, k)
      else (EmptyString, s)
  | EmptyString => (EmptyString, s)
  end.

Definition digits1 (s : string) : option (string * string) :=
  match digits s with
  | (EmptyString, _) => None
  | (d, k) => Some (d, k)
  end.

Definition int_part (s : string) : option (string * string) :=
  match s with
  | String c r =>
      if Ascii.eqb c "0"%char then Some (String c EmptyString, r)
      else if is_digit c then let '(d, k) := digits r in Some (String c d, k)
      else None
  | EmptyString => None
  end.

Definition frac_part (s : string) : option (string * string) :=
  match s with
  | String c r =>
      if Ascii.eqb c "."%char then
        match digits1 r with
        | Some (d, k) => Some (String c d, k)
        | None => None
        end
      else Some (EmptyString, s)
  | EmptyString => Some (EmptyString, s)
  end.

Definition exp_part (s : string) : option (string * string) :=
  match s with
  | String c r =>
      if Ascii.eqb c "e"%char || Ascii.eqb c "E"%char then
        let '(sign, r1) :=
          match r with
          | String g r' =>
              if Ascii.eqb g "+"%char || Ascii.eqb g "-"%char
              then (String g EmptyString, r') else (EmptyString, r)
          | EmptyString => (EmptyString, r)
          end in
        match digits1 r1 with
        | Some (d, k) => Some (String c (sign +:+ d), k)
        | None => None
        end
      else Some (EmptyString, s)
  | EmptyString => Some (EmptyString, s)
  end.

Definition number (s : string) : option (string * string) :=
  let '(sign, r0) :=
    match s with
    | String c r => if Ascii.eqb c "-"%char then (String c EmptyString, r)
                    else (EmptyString, s)
    | EmptyString => (EmptyString, s)
    end in
  match int_part r0 with
  | None => None
  | Some (i, r1) =>
      match frac_part r1 with
      | None => None
      | Some (f, r2) =>
          match exp_part r2 with
          | None => None
          | Some (e, r3) => Some (sign +:+ i +:+ f +:+ e, r3)
          end
      end
  end.

(** *** Values *)

Fixpoint strip_prefix (p s : string) : option string :=
  match p, s with
  | EmptyString, _ => Some s
  | String a p', String b s' => if Ascii.eqb a b then strip_prefix p' s' else None
  | String _ _, EmptyString => None
  end.

(** [parse_value] reads one value at the head of [s] (no leading space);
    [parse_members] and [parse_elements] read the rest of an object or an
    array once its first member or element is due.  [room] is how many
    more objects and arrays may be opened inside one another: the scanner
    gives up past a nesting depth of 10000. *)
Fixpoint parse_value (fuel room : nat) (s : string)
  : option (value * string) :=
  match fuel with
  | O => None
  | S fuel =>
      match s with
      | EmptyString => None
      | String c r =>
          if Ascii.eqb c "{"%char then
            match room with
            | O => None
            | S room =>
                match skip_ws r with
                | String c1 r1 =>
                    if Ascii.eqb c1 "}"%char then Some (JObject [], r1)
                    else
                      match parse_members fuel room (String c1 r1) with
                      | Some (ms, k) => Some (JObject ms, k)
                      | None => None
                      end
                | EmptyString => None
                end
            end
          else if Ascii.eqb c "["%char then
            match room with
            | O => None
            | S room =>
                match skip_ws r with
                | String c1 r1 =>
                    if Ascii.eqb c1 "]"%char then Some (JArray [], r1)
                    else
                      match parse_elements fuel room (String c1 r1) with
                      | Some (xs, k) => Some (JArray xs, k)
                      | None => None
                      end
                | EmptyString => None
                end
            end
          else if Ascii.eqb c dquote then
            match string_body (String.length s) r with
            | Some (t, k) => Some (JString t, k)
            | None => None
            end
          else if Ascii.eqb c "-"%char || is_digit c then
            match number s with
            | Some (n, k) => Some (JNumber n, k)
            | None => None
            end
          else
            match strip_prefix "true" s, strip_prefix "false" s,
                  strip_prefix "null" s with
            | Some k, _, _ => Some (JBool true, k)
            | _, Some k, _ => Some (JBool false, k)
            | _, _, Some k => Some (JNull, k)
            | None, None, None => None
            end
      end
  end
with parse_members (fuel room : nat) (s : string)
  : option (list (string * value) * string) :=
  match fuel with
  | O => None
  | S fuel =>
      match s with
      | String c r =>
          if Ascii.eqb c dquote then
            match string_body (String.length s) r with
            | None => None
            | Some (key, r1) =>
                match skip_ws r1 with
                | String c2 r2 =>
                    if Ascii.eqb c2 ":"%char then
                      match parse_value fuel room (skip_ws r2) with
                      | None => None
                      | Some (v, r3) =>
                          match skip_ws r3 with
                          | String c4 r4 =>
                              if Ascii.eqb c4 "}"%char then Some ([(key, v)], r4)
                              else if Ascii.eqb c4 ","%char then
                                match parse_members fuel room (skip_ws r4) with
                                | Some (ms, k) => Some ((key, v) :: ms, k)
                                | None => None
                                end
                              else None
                          | EmptyString => None
                          end
                      end
                    else None
                | EmptyString => None
                end
            end
          else None
      | EmptyString => None
      end
  end
with parse_elements (fuel room : nat) (s : string)
  : option (list value * string) :=
  match fuel with
  | O => None
  | S fuel =>
      match parse_value fuel room s with
      | None => None
      | Some (v, r1) =>
          match skip_ws r1 with
          | String c2 r2 =>
              if Ascii.eqb c2 "]"%char then Some ([v], r2)
              else if Ascii.eqb c2 ","%char then
                match parse_elements fuel room (skip_ws r2) with
                | Some (xs, k) => Some (v :: xs, k)
                | None => None
                end
              else None
          | EmptyString => None
          end
      end
  end.

Definition max_nesting_depth : nat := Z.to_nat 10000.

(** A whole text, as the scanner accepts it: one value with optional space
    around it.  Every call above consumes a character before it recurses,
    so twice the length of the text is fuel enough. *)
Definition decode (data : string) : option value :=
  match parse_value (2 * String.length data + 2) max_nesting_depth
          (skip_ws data) with
  | Some (v, rest) =>
      match skip_ws rest with
      | EmptyString => Some v
      | String _ _ => None
      end
  | None => None
  end.

(** *** From the text of a number to a [float64] *)

Fixpoint digits_value (s : string) (acc : Z) : Z :=
  match s with
  | String c r => digits_value r (10 * acc + (Z.of_N (N_of_ascii c) - 48))
  | EmptyString => acc
  end.

(** The least magnitude [strconv.ParseFloat] rounds to infinity: half way
    between the largest [float64] and 2^1024. *)
Definition float64_limit : Z := 2 ^ 1024 - 2 ^ 970.

(** The exponent as [strconv] reads it: digits are taken in only while
    the value is below 10000. *)
Fixpoint exponent_value (s : string) (acc : Z) : Z :=
  match s with
  | String c r =>
      exponent_value r
        (if acc <? 10000 then 10 * acc + (Z.of_N (N_of_ascii c) - 48)
         else acc)
  | EmptyString => acc
  end.

(** The digits of the literal, as one integer, and the power of ten it is
    to be multiplied by. *)
Definition mantissa_and_exponent (lit : string) : option (string * Z) :=
  let unsigned :=
    match lit with
    | String c r => if Ascii.eqb c "-"%char then r else lit
    | EmptyString => lit
    end in
  match int_part unsigned with
  | None => None
  | Some (i, r1) =>
      match frac_part r1 with
      | None => None
      | Some (f, r2) =>
          let fdigits := match f with String _ ds => ds | EmptyString => f end in
          let e :=
            match r2 with
            | String _ (String g ds) =>
                if Ascii.eqb g "-"%char then - exponent_value ds 0
                else if Ascii.eqb g "+"%char then exponent_value ds 0
                else exponent_value (String g ds) 0
            | _ => 0
            end in
          Some (i +:+ fdigits, e - Z.of_nat (String.length fdigits))
      end
  end.

(** Whether [strconv.ParseFloat(lit, 64)] reports a range error: the
    number, rounded to the nearest [float64], is infinite.  The outer tests
    keep the powers of ten small. *)
Definition overflows_float64 (lit : string) : bool :=
  match mantissa_and_exponent lit with
  | None => false
  | Some (ds, e) =>
      let m := digits_value ds 0 in
      if m =? 0 then false
      else if 400 <? e then true
      else if 0 <=? e then float64_limit <=? m * 10 ^ e
      else if Z.of_nat (String.length ds) <=? 308 - e then false
      else float64_limit * 10 ^ (- e) <=? m
  end.

(** *** What ends up in the [interface{}] *)

(** The members of a nested object, one per name: a later member has
    replaced an earlier one of its name. *)
Fixpoint last_wins (ms : list (string * value)) : list (string * value) :=
  match ms with
  | [] => []
  | (k, v) :: rest =>
      if existsb (fun kv => String.eqb (fst kv) k) rest then last_wins rest
      else (k, v) :: last_wins rest
  end.

(** The value the decoder stores for a value of the text: a number outside
    the range of [float64] is reported and leaves nil where it stood. *)
Fixpoint stored (v : value) : value :=
  match v with
  | JNumber lit => if overflows_float64 lit then JNull else v
  | JArray items => JArray (map stored items)
  | JObject members =>
      JObject (last_wins (map (fun kv => (fst kv, stored (snd kv))) members))
  | _ => v
  end.

(** Whether storing the value reports a number out of range. *)
Fixpoint out_of_range (v : value) : bool :=
  match v with
  | JNumber lit => overflows_float64 lit
  | JArray items => existsb out_of_range items
  | JObject members => existsb (fun kv => out_of_range (snd kv)) members
  | _ => false
  end.

(** The members of the top-level object, each with the value stored for
    it, and whether storing them reports a number out of range. *)
Definition stored_members (ms : list (string * value))
  : list (string * value) :=
  map (fun kv => (fst kv, stored (snd kv))) ms.

Definition members_out_of_range (ms : list (string * value)) : bool :=
  existsb (fun kv => out_of_range (snd kv)) ms.

End Json.

(** ** The document builder: [newPayload] and the decode step *)

(** [type payload map[string]interface{}].  A nil map reads as the empty
    map: it has no entries. *)
Abbreviation payload := (gmap string Json.value).

Definition rawMsgKey : string := "@raw_msg".
Definition timestampKey : string := "@timestamp".
Definition sourceKey : string := "@source".

(** The wall-clock reading [time.Now()] hands to [Format]. *)
Record instant : Type := {
  year : nat; month : nat; day : nat;
  hour : nat; minute : nat; second : nat;
  zone_minutes : Z   (* offset east of UTC *)
}.

Definition digit_char (d : nat) : ascii := ascii_of_nat (48 + d mod 10).

Definition pad2 (n : nat) : string :=
  String (digit_char (n / 10)) (String (digit_char n) EmptyString).

Definition pad4 (n : nat) : string := pad2 (n / 100) +:+ pad2 (n mod 100).

(** [Format(time.RFC3339)], layout [2006-01-02T15:04:05Z07:00], for years
    up to 9999 and zone offsets of whole minutes. *)
Definition format_rfc3339 (t : instant) : string :=
  let zone :=
    if zone_minutes t =? 0 then "Z"
    else
      let a := Z.to_nat (Z.abs (zone_minutes t)) in
      (if zone_minutes t <? 0 then "-" else "+")
        +:+ pad2 (a / 60) +:+ ":" +:+ pad2 (a mod 60) in
  pad4 (year t) +:+ "-" +:+ pad2 (month t) +:+ "-" +:+ pad2 (day t) +:+ "T"
    +:+ pad2 (hour t) +:+ ":" +:+ pad2 (minute t) +:+ ":" +:+ pad2 (second t)
    +:+ zone.

Definition newPayload (msg source : string) (now : instant) : payload :=
  <[timestampKey := Json.JString (format_rfc3339 now)]>
    (<[sourceKey := Json.JString source]>
       (<[rawMsgKey := Json.JString msg]> ∅)).

Inductive unmarshal_error : Type :=
  | SyntaxError
  | UnmarshalTypeError (found : string).

(** [m[k] = v] for each member in turn: a later duplicate wins, entries
    already in the map are kept unless a member has their key. *)
Definition merge_members (ms : list (string * Json.value)) (p : payload)
  : payload :=
  fold_left (fun m kv => <[kv.1 := kv.2]> m) ms p.

(** [json.Unmarshal(data, p)] for [p : *payload].  The text is checked
    whole before anything is stored, so a syntax error leaves the map as it
    was; the members of an object are stored into the existing map, all of
    them even when a number among them is out of range, which is reported
    once the object is stored; the literal null sets the map to nil; any
    other value is a type error and stores nothing. *)
Definition Unmarshal (data : string) (p : payload)
  : option unmarshal_error * payload :=
  match Json.decode data with
  | None => (Some SyntaxError, p)
  | Some (Json.JObject ms) =>
      (if Json.members_out_of_range ms
       then Some (UnmarshalTypeError "number") else None,
       merge_members (Json.stored_members ms) p)
  | Some Json.JNull => (None, ∅)
  | Some (Json.JArray _) => (Some (UnmarshalTypeError "array"), p)
  | Some (Json.JString _) => (Some (UnmarshalTypeError "string"), p)
  | Some (Json.JNumber _) => (Some (UnmarshalTypeError "number"), p)
  | Some (Json.JBool _) => (Some (UnmarshalTypeError "bool"), p)
  end.

(** The two statements of the goroutine in [consumeForever] that make the
    document: [newPayload(string(m.Data), m.Subject)] and then
    [_ = json.Unmarshal(m.Data, payload)], whose error is dropped. *)
Definition buildDocument (data subject : string) (now : instant) : payload :=
  (Unmarshal data (newPayload data subject now)).2.

(** ** The consumer loop *)

Record Msg : Type := { Subject : string; Data : string }.

Inductive nats_error : Type :=
  | ErrTimeout
  | ErrConnectionClosed
  | ErrBadSubscription.

(** [int64] counters: [x++] wraps. *)
Definition wrap64 (z : Z) : Z := (z + 2 ^ 63) mod 2 ^ 64 - 2 ^ 63.

Record counters : Type := { natsConsumed : Z; esSent : Z }.

(** What one spawned goroutine does with the [m] it captured: a nil [m]
    makes [m.Data] a nil-pointer dereference, which panics; otherwise the
    document is built and sent on [toSend]. *)
Inductive task_result : Type :=
  | Enqueued (p : payload)
  | NilDereference.

Definition consumeForever_task (now : instant) (m : option Msg) : task_result :=
  match m with
  | None => NilDereference
  | Some m => Enqueued (buildDocument (Data m) (Subject m) now)
  end.

Inductive consumer_state : Type :=
  | Returned (err : nats_error)   (* the loop ended with [return err] *)
  | Receiving.                     (* blocked in the next [sub.NextMsg] *)

(** [consumeForever], run against the successive results [(m, err)] of
    [sub.NextMsg].  The result lists, oldest first, the goroutines the loop
    spawned, each by the [m] it captured, and gives the counters back: the
    function receives [stats] and never writes to it.  This is the loop on
    its own: what a spawned goroutine does is [consumeForever_task], and
    one that panics ends the whole process, this loop included, whenever it
    gets to run. *)
Fixpoint consumeForever (results : list (option Msg * option nats_error))
    (stats : counters) : consumer_state * list (option Msg) * counters :=
  match results with
  | [] => (Receiving, [], stats)
  | (m, err) :: rest =>
      match err with
      | Some ErrTimeout | None =>
          let '(st, spawned, stats') := consumeForever rest stats in
          (st, m :: spawned, stats')
      | Some e => (Returned e, [], stats)
      end
  end.

(** ** Configuration *)

Record elasticConfig : Type := {
  Index : string;
  Hosts : list string;
  Port : Z;
  Trace : bool;
  ReconnectAttempts : Z;
  RetrySeconds : Z;
  BatchSize : Z;
  BatchTimeoutSec : Z
}.

(** ** The batching loop *)

Inductive trigger : Type := BySize | ByTimeout.

(** One [go sendToES(config, log, stats, batch)]. *)
Record dispatch : Type := { why : trigger; docs : list payload }.

(** The case of the [select] that fires in one iteration. *)
Inductive select_case : Type :=
  | Incoming (p : payload)
  | TimerFired.

(** The body of the [for] loop of [batchAndSend]: the open batch before,
    the case that fired; the dispatch made, if any, and the open batch
    after. *)
Definition batchAndSend_iter (config : elasticConfig) (batch : list payload)
    (c : select_case) : option dispatch * list payload :=
  match c with
  | Incoming p =>
      let batch := batch ++ [p] in
      if BatchSize config <=? Z.of_nat (length batch)
      then (Some {| why := BySize; docs := batch |}, [])
      else (None, batch)
  | TimerFired => (Some {| why := ByTimeout; docs := batch |}, [])
  end.

Fixpoint batchAndSend_loop (config : elasticConfig) (batch : list payload)
    (cases : list select_case) : list dispatch * list payload :=
  match cases with
  | [] => ([], batch)
  | c :: rest =>
      let '(d, batch') := batchAndSend_iter config batch c in
      let '(ds, final) := batchAndSend_loop config batch' rest in
      (match d with Some d => d :: ds | None => ds end, final)
  end.

(** [batchAndSend] over the cases its [select] takes, in order.
    [make([]*payload, 0, config.BatchSize)] panics on a negative capacity
    before the loop is entered: [None]. *)
Definition batchAndSend (config : elasticConfig) (cases : list select_case)
  : option (list dispatch * list payload) :=
  if BatchSize config <? 0 then None
  else Some (batchAndSend_loop config [] cases).

(** *** The loop on a clock

    Times are in nanoseconds.  [time.After] is called when the [select] is
    entered, that is once per iteration: the timer of an iteration starts
    at the instant [t] the iteration starts. *)

(** [time.Duration(config.BatchTimeoutSec) * time.Second], an [int64]. *)
Definition batch_timeout (config : elasticConfig) : Z :=
  wrap64 (BatchTimeoutSec config * 1000000000).

(** An iteration entered at [t], with the pending sends on [incoming]
    given by the instants their senders are ready, earliest first: the
    instant the [select] returns, the case taken, the sends left.  A timer
    of non-positive duration is due at once; when both cases are ready at
    the same instant Go takes either, and the timer is taken here. *)
Definition select_at (config : elasticConfig) (t : Z)
    (arrivals : list (Z * payload)) : Z * select_case * list (Z * payload) :=
  let deadline := t + Z.max 0 (batch_timeout config) in
  match arrivals with
  | (a, p) :: rest =>
      if a <? deadline then (Z.max a t, Incoming p, rest)
      else (deadline, TimerFired, arrivals)
  | [] => (deadline, TimerFired, [])
  end.

Record timed_state : Type := {
  clock : Z;
  open_batch : list payload;
  pending : list (Z * payload)
}.

(** [n] iterations of the loop from a state: the dispatches made, each
    with its instant, and the state reached. *)
Fixpoint batchAndSend_timed (n : nat) (config : elasticConfig)
    (st : timed_state) : list (Z * dispatch) * timed_state :=
  match n with
  | O => ([], st)
  | S n =>
      let '(t', c, rest) := select_at config (clock st) (pending st) in
      let '(d, batch') := batchAndSend_iter config (open_batch st) c in
      let '(ds, final) :=
        batchAndSend_timed n config
          {| clock := t'; open_batch := batch'; pending := rest |} in
      (match d with Some d => (t', d) :: ds | None => ds end, final)
  end.

(** ** The dispatcher *)

(** [*elastigo.Conn]: [conn_id] tells the objects [elastigo.NewConn()]
    returns apart. *)
Record Conn : Type := {
  conn_id : nat;
  conn_port : Z;
  conn_hosts : list string;
  conn_tracer : bool
}.

(** [*elastigo.BulkIndexer]: it keeps the connection it was made from. *)
Record BulkIndexer : Type := {
  ix_conn : Conn;
  ix_maxConns : Z;
  ix_retrySeconds : Z
}.

Inductive level : Type := Debug | Info | Warn | Fatal.

(** What a run asks of the logger, of elastigo and of the runtime. *)
Inductive event : Type :=
  | EvLog (l : level) (msg : string) (args : list Z)
  | EvNewConn (c : Conn)
  | EvNewBulkIndexer (ix : BulkIndexer)
  | EvGoLogErrors (ix : BulkIndexer)
  | EvStart (ix : BulkIndexer)
  | EvIndex (ix : BulkIndexer) (index type : string) (doc : payload) (ok : bool)
  | EvFlush (ix : BulkIndexer)
  | EvStop (ix : BulkIndexer)
  | EvSleep (seconds : Z).

Record World : Type := {
  stats : counters;
  next_conn : nat;
  trace : list event    (* oldest first *)
}.

(** A call returns a value, or the process has exited: [log.Fatal] ends in
    [os.Exit(1)], which runs no deferred call. *)
Inductive outcome (A : Type) : Type :=
  | Ok (a : A)
  | Exited (msg : string).
Arguments Ok {A} a.
Arguments Exited {A} msg.

Definition M (A : Type) : Type := World -> outcome A * World.

Definition ret {A} (a : A) : M A := fun w => (Ok a, w).

Definition bind {A B} (m : M A) (k : A -> M B) : M B :=
  fun w =>
    match m w with
    | (Ok a, w') => k a w'
    | (Exited msg, w') => (Exited msg, w')
    end.

Notation "x <- m ;; k" := (bind m (fun x => k))
  (at level 100, m at next level, right associativity).
Notation "m ;; k" := (bind m (fun _ => k))
  (at level 100, right associativity).

Definition emit (e : event) : M unit :=
  fun w => (Ok tt, {| stats := stats w; next_conn := next_conn w;
                      trace := trace w ++ [e] |}).

Definition log (l : level) (msg : string) (args : list Z) : M unit :=
  emit (EvLog l msg args).

Definition fatal {A} (msg : string) (args : list Z) : M A :=
  fun w =>
    match emit (EvLog Fatal msg args) w with
    | (_, w') => (Exited msg, w')
    end.

(** [elastigo.NewConn()]: a fresh connection object on the default port;
    nothing is sent. *)
Definition NewConn : M Conn :=
  fun w =>
    (Ok {| conn_id := next_conn w; conn_port := 9200;
           conn_hosts := ["localhost"]; conn_tracer := false |},
     {| stats := stats w; next_conn := S (next_conn w); trace := trace w |}).

Definition connectToES (config : elasticConfig) : M (Conn * option string) :=
  log Info "Connecting to elastic search" [] ;;
  conn <- NewConn ;;
  let conn :=
    if 0 <? Port config
    then {| conn_id := conn_id conn; conn_port := Port config;
            conn_hosts := conn_hosts conn; conn_tracer := conn_tracer conn |}
    else conn in
  let conn :=
    if Trace config
    then {| conn_id := conn_id conn; conn_port := conn_port conn;
            conn_hosts := conn_hosts conn; conn_tracer := true |}
    else conn in
  let conn :=
    {| conn_id := conn_id conn; conn_port := conn_port conn;
       conn_hosts := Hosts config; conn_tracer := conn_tracer conn |} in
  emit (EvNewConn conn) ;;
  ret (conn, None).

(** [reconnect]: [for ; times < config.ReconnectAttempts; times++], with
    [togo] iterations to go. *)
Fixpoint reconnect_loop (config : elasticConfig) (times : Z) (togo : nat)
  : M Conn :=
  match togo with
  | O =>
      fatal "Failed to reconnect to elasticsearch after %d attempts"
            [ReconnectAttempts config]
  | S togo =>
      log Debug "reconnecting attempt %d/%d"
          [times + 1; ReconnectAttempts config] ;;
      r <- connectToES config ;;
      match r with
      | (client, None) =>
          log Info "Reconnected after %d attempts" [times + 1] ;;
          ret client
      | (_, Some _) =>
          log Warn "Failed to reconnect attempt %d" [times + 1] ;;
          reconnect_loop config (times + 1) togo
      end
  end.

Definition reconnect (config : elasticConfig) : M Conn :=
  reconnect_loop config 0 (Z.to_nat (ReconnectAttempts config)).

Definition NewBulkIndexerErrors (c : Conn) (maxConns retrySeconds : Z)
  : M BulkIndexer :=
  let ix := {| ix_conn := c; ix_maxConns := maxConns;
               ix_retrySeconds := retrySeconds |} in
  emit (EvNewBulkIndexer ix) ;; ret ix.

(** [stats.esSent++] *)
Definition incr_esSent : M unit :=
  fun w =>
    (Ok tt,
     {| stats := {| natsConsumed := natsConsumed (stats w);
                    esSent := wrap64 (esSent (stats w) + 1) |};
        next_conn := next_conn w; trace := trace w |}).

(** The [for resend] loop for one document.  [answers] are the results of
    the coming calls of [indexer.Index], [true] for a nil error; once they
    are used up every call is accepted.  Returns the current [client] and
    the answers left. *)
Fixpoint send_doc (config : elasticConfig) (indexer : BulkIndexer)
    (client : Conn) (doc : payload) (answers : list bool)
  : M (Conn * list bool) :=
  let index_call ok :=
    log Debug "Sending to ES: %s" [] ;;
    emit (EvIndex indexer (Index config) "log_line" doc ok) in
  match answers with
  | false :: rest =>
      index_call false ;;
      log Warn "Error sending data to elasticsearch -- retrying" [] ;;
      client <- reconnect config ;;
      send_doc config indexer client doc rest
  | _ =>
      index_call true ;;
      log Debug "Sent" [] ;;
      incr_esSent ;;
      ret (client, tl answers)
  end.

(** [for _, in := range batch] *)
Fixpoint send_batch (config : elasticConfig) (indexer : BulkIndexer)
    (client : Conn) (batch : list payload) (answers : list bool)
  : M (Conn * list bool) :=
  match batch with
  | [] => ret (client, answers)
  | doc :: rest =>
      r <- send_doc config indexer client doc answers ;;
      send_batch config indexer r.1 rest r.2
  end.

Definition sendToES (config : elasticConfig) (batch : list payload)
    (answers : list bool) : M (list bool) :=
  if (length batch =? 0)%nat then ret answers
  else
    r <- connectToES config ;;
    match r with
    | (_, Some _) => fatal "Failed to connect to elasticsearch" []
    | (client, None) =>
        log Debug "Connected to elasticseach" [] ;;
        indexer <- NewBulkIndexerErrors client 3 (RetrySeconds config) ;;
        emit (EvGoLogErrors indexer) ;;
        log Debug "Started indexer" [] ;;
        emit (EvStart indexer) ;;
        r <- send_batch config indexer client batch answers ;;
        (* the deferred function *)
        log Debug "Shutting down indexer" [] ;;
        emit (EvFlush indexer) ;;
        emit (EvStop indexer) ;;
        ret r.2
    end.

(** ** Sample inputs *)

(** [quoted s] is [s] between double quotes, for writing JSON text. *)
Definition quoted (s : string) : string :=
  String Json.dquote (s +:+ String Json.dquote EmptyString).

Definition sample_instant : instant :=
  {| year := 2016; month := 3; day := 7; hour := 9; minute := 5; second := 0;
     zone_minutes := -480 |}.

(** The body of scenario 5: an object with members user and raw_message. *)
Definition scenario5_body : string :=
  "{" +:+ quoted "user" +:+ ":" +:+ quoted "a" +:+ ","
      +:+ quoted "raw_message" +:+ ":" +:+ quoted "x" +:+ "}".

(** The same object with the reserved key for its second member. *)
Definition reserved_key_body : string :=
  "{" +:+ quoted "user" +:+ ":" +:+ quoted "a" +:+ ","
      +:+ quoted rawMsgKey +:+ ":" +:+ quoted "x" +:+ "}".

(** An object whose first member is a number no [float64] can hold. *)
Definition overflow_body : string :=
  "{" +:+ quoted "a" +:+ ":1e999," +:+ quoted "b" +:+ ":2}".

(** The state [run] starts from: [new(counters)] and nothing done yet. *)
Definition initial_world : World :=
  {| stats := {| natsConsumed := 0; esSent := 0 |}; next_conn := 0;
     trace := [] |}.

(** One interleaving of the goroutines [run] starts, from zeroed counters:
    the consumer receives [results]; each goroutine it spawned builds and
    sends its document, in the order they were spawned; the aggregator takes
    them one by one and then its timer fires; the dispatches run one after
    the other against a backend that accepts every document.  [None] when a
    goroutine panics. *)
Definition consumer_documents (now : instant) (spawned : list (option Msg))
  : option (list payload) :=
  fold_right
    (fun m acc =>
       match consumeForever_task now m, acc with
       | Enqueued p, Some ps => Some (p :: ps)
       | _, _ => None
       end)
    (Some []) spawned.

Fixpoint run_dispatches (config : elasticConfig) (ds : list dispatch)
    (w : World) : outcome unit * World :=
  match ds with
  | [] => (Ok tt, w)
  | d :: rest =>
      match sendToES config (docs d) [] w with
      | (Ok _, w') => run_dispatches config rest w'
      | (Exited msg, w') => (Exited msg, w')
      end
  end.

Definition run_schedule (config : elasticConfig) (now : instant)
    (results : list (option Msg * option nats_error))
  : option (outcome unit * World) :=
  let '(_, spawned, stats') :=
    consumeForever results (stats initial_world) in
  match consumer_documents now spawned with
  | None => None
  | Some ps =>
      match batchAndSend config (map Incoming ps ++ [TimerFired]) with
      | None => None
      | Some (ds, _) =>
          Some (run_dispatches config ds
                  {| stats := stats'; next_conn := next_conn initial_world;
                     trace := trace initial_world |})
      end
  end.

(** A configuration, and the same with the batch size left at zero, the
    value of an [int] field the configuration file does not set. *)
Definition sample_config : elasticConfig :=
  {| Index := "logs"; Hosts := ["localhost"]; Port := 9200; Trace := false;
     ReconnectAttempts := 3; RetrySeconds := 2; BatchSize := 2;
     BatchTimeoutSec := 10 |}.


Definition zero_batch_config : elasticConfig :=
  {| Index := "logs"; Hosts := ["localhost"]; Port := 9200; Trace := false;
     ReconnectAttempts := 3; RetrySeconds := 2; BatchSize := 0;
     BatchTimeoutSec := 10 |}.

(** A batch size no trickle of documents reaches, with a timeout of ten
    seconds. *)
Definition trickle_config : elasticConfig :=
  {| Index := "logs"; Hosts := ["localhost"]; Port := 9200; Trace := false;
     ReconnectAttempts := 3; RetrySeconds := 2; BatchSize := 100;
     BatchTimeoutSec := 10 |}.

Definition numbered (n : string) : payload := {[ "n" := Json.JNumber n ]}.

Definition seconds (n : Z) : Z := n * 1000000000.

(** Three documents, six seconds apart. *)
Definition trickle : list (Z * payload) :=
  [(seconds 6, numbered "1"); (seconds 12, numbered "2");
   (seconds 18, numbered "3")].

(** ** Observations used in the statements *)

(** The value the last member named [k] gives, if there is one. *)
Fixpoint last_member (k : string) (ms : list (string * Json.value))
  : option Json.value :=
  match ms with
  | [] => None
  | (k', v) :: rest =>
      match last_member k rest with
      | Some v' => Some v'
      | None => if decide (k' = k) then Some v else None
      end
  end.


(** The bounds on a dispatched batch, by what triggered it. *)
Definition within_bounds (config : elasticConfig) (d : dispatch) : Prop :=
  match why d with
  | BySize => 1 <= Z.of_nat (length (docs d)) <= BatchSize config
  | ByTimeout => 0 <= Z.of_nat (length (docs d)) < BatchSize config
  end.


(** Every send in [arrivals] is ready less than [period] after the event
    the loop handled before it, the first of them after the instant [t]. *)
Fixpoint arrivals_within (period t : Z) (arrivals : list (Z * payload))
  : Prop :=
  match arrivals with
  | [] => True
  | (a, _) :: rest => a < t + period /\ arrivals_within period (Z.max a t) rest
  end.


(** The connection object [connectToES] returns when [elastigo.NewConn]
    numbers it [id]. *)
Definition made_conn (config : elasticConfig) (id : nat) : Conn :=
  {| conn_id := id;
     conn_port := if 0 <? Port config then Port config else 9200;
     conn_hosts := Hosts config;
     conn_tracer := Trace config |}.

(** The events of one call of [connectToES]. *)
Definition connect_events (config : elasticConfig) (id : nat) : list event :=
  [EvLog Info "Connecting to elastic search" [];
   EvNewConn (made_conn config id)].

(** [x++] on an [int64]. *)
Definition incr64 (x : Z) : Z := wrap64 (x + 1).

(** Calls of [indexer.Index] that returned a nil error. *)
Definition is_accepted (e : event) : bool :=
  match e with
  | EvIndex _ _ _ _ ok => ok
  | _ => false
  end.

Definition accepted (evs : list event) : nat :=
  length (List.filter is_accepted evs).

(** Calls of [indexer.Index] that returned an error. *)
Definition is_rejected (e : event) : bool :=
  match e with
  | EvIndex _ _ _ _ ok => negb ok
  | _ => false
  end.

Definition rejected (evs : list event) : nat :=
  length (List.filter is_rejected evs).

(** The indexers the calls of [indexer.Index] went through, and the
    documents they carried with their results. *)
Definition index_calls (evs : list event)
  : list (BulkIndexer * payload * bool) :=
  omap (fun e => match e with
                 | EvIndex ix _ _ doc ok => Some (ix, doc, ok)
                 | _ => None
                 end) evs.

(** The numbers of the connection objects made. *)
Definition new_conn_ids (evs : list event) : list nat :=
  omap (fun e => match e with
                 | EvNewConn c => Some (conn_id c)
                 | _ => None
                 end) evs.

(** The attempts of [reconnect], counted by the line each one logs first. *)
Definition is_attempt (e : event) : bool :=
  match e with
  | EvLog Debug msg _ => String.eqb msg "reconnecting attempt %d/%d"
  | _ => false
  end.

Definition attempts (evs : list event) : nat :=
  length (List.filter is_attempt evs).

Definition is_sleep (e : event) : bool :=
  match e with
  | EvSleep _ => true
  | _ => false
  end.

(** Whether every attempt after the first comes after a pause of [secs]
    seconds since the attempt before it.  [waited] tells whether such a
    pause was seen since the last attempt; [first] whether no attempt was
    seen yet. *)
Fixpoint attempts_delayed_from (secs : Z) (first waited : bool)
    (evs : list event) : bool :=
  match evs with
  | [] => true
  | e :: rest =>
      if is_attempt e then
        (first || waited) && attempts_delayed_from secs false false rest
      else
        match e with
        | EvSleep s =>
            attempts_delayed_from secs first (waited || (s =? secs)) rest
        | _ => attempts_delayed_from secs first waited rest
        end
  end.

Definition attempts_delayed (secs : Z) (evs : list event) : bool :=
  attempts_delayed_from secs true false evs.

(** The world after a call that made [n] connection objects and added the
    events [evs], the counters apart. *)
Definition advanced (w : World) (n : nat) (evs : list event) : World :=
  {| stats := stats w; next_conn := n + next_conn w;
     trace := trace w ++ evs |}.

(** What a call did to the world: the events it added, the consumed
    counter untouched, and the sent counter incremented once for each
    accepted call of [indexer.Index] among the events. *)
Record effect (w w' : World) (evs : list event) : Prop := {
  eff_trace : trace w' = trace w ++ evs;
  eff_consumed : natsConsumed (stats w') = natsConsumed (stats w);
  eff_sent :
    esSent (stats w') = Nat.iter (accepted evs) incr64 (esSent (stats w))
}.

Definition reconnect_failure : string :=
  "Failed to reconnect to elasticsearch after %d attempts".

Definition connect_failure : string := "Failed to connect to elasticsearch".

(** A call of [indexer.Index] made on [ix] with [doc]. *)
Definition through (ix : BulkIndexer) (doc : payload)
    (c : BulkIndexer * payload * bool) : Prop :=
  c.1.1 = ix /\ c.1.2 = doc.


(** The events of one rejected call of [indexer.Index] followed by a
    [reconnect] that succeeds at once with connection number [id]. *)
Definition retry_events (config : elasticConfig) (ix : BulkIndexer)
    (doc : payload) (id : nat) : list event :=
  [EvLog Debug "Sending to ES: %s" [];
   EvIndex ix (Index config) "log_line" doc false;
   EvLog Warn "Error sending data to elasticsearch -- retrying" [];
   EvLog Debug "reconnecting attempt %d/%d" [1; ReconnectAttempts config]]
  ++ connect_events config id
  ++ [EvLog Info "Reconnected after %d attempts" [1]].

(** The events of one rejected call followed by a [reconnect] that has no
    attempt to make. *)
Definition give_up_events (config : elasticConfig) (ix : BulkIndexer)
    (doc : payload) : list event :=
  [EvLog Debug "Sending to ES: %s" [];
   EvIndex ix (Index config) "log_line" doc false;
   EvLog Warn "Error sending data to elasticsearch -- retrying" [];
   EvLog Fatal reconnect_failure [ReconnectAttempts config]].

(** A call of [indexer.Index] made on [ix]. *)
Definition via (ix : BulkIndexer) (c : BulkIndexer * payload * bool) : Prop :=
  c.1.1 = ix.

(** The indexer a dispatch makes from its first connection, numbered
    [id]. *)
Definition dispatch_indexer (config : elasticConfig) (id : nat) : BulkIndexer :=
  {| ix_conn := made_conn config id; ix_maxConns := 3;
     ix_retrySeconds := RetrySeconds config |}.

(** The events of [sendToES] before its loop and after it. *)
Definition start_events (config : elasticConfig) (id : nat) : list event :=
  connect_events config id ++
  [EvLog Debug "Connected to elasticseach" [];
   EvNewBulkIndexer (dispatch_indexer config id);
   EvGoLogErrors (dispatch_indexer config id);
   EvLog Debug "Started indexer" [];
   EvStart (dispatch_indexer config id)].

Definition stop_events (ix : BulkIndexer) : list event :=
  [EvLog Debug "Shutting down indexer" []; EvFlush ix; EvStop ix].

(** ** Further observations *)

(** The documents a run of the [select] received, in order. *)
Definition incoming_docs (cases : list select_case) : list payload :=
  omap (fun c => match c with Incoming p => Some p | TimerFired => None end)
       cases.

(** A size-triggered batch that holds exactly the batch size. *)
Definition full_if_by_size (config : elasticConfig) (d : dispatch) : Prop :=
  match why d with
  | BySize => Z.of_nat (length (docs d)) = BatchSize config
  | ByTimeout => True
  end.

(** What one iteration dispatches when nothing is ever kept open. *)
Definition dispatched_alone (c : select_case) : dispatch :=
  match c with
  | Incoming p => {| why := BySize; docs := [p] |}
  | TimerFired => {| why := ByTimeout; docs := [] |}
  end.

(** The error that makes [consumeForever] return, if the result carries
    one: any error but [nats.ErrTimeout]. *)
Definition ending_error (r : option Msg * option nats_error)
  : option nats_error :=
  match r.2 with
  | Some ErrTimeout | None => None
  | Some e => Some e
  end.

(** The result of a [sub.NextMsg] that delivers the message [m]. *)
Definition delivered (m : Msg) : option Msg * option nats_error :=
  (Some m, None).

(** The time a timer of [batchAndSend] runs: a non-positive duration is
    due at once. *)
Definition timer_period (config : elasticConfig) : Z :=
  Z.max 0 (batch_timeout config).

(** The instant the loop handles the last of [arrivals], when it entered
    the [select] at [t] and takes them all. *)
Definition last_handled (t : Z) (arrivals : list (Z * payload)) : Z :=
  fold_left (fun acc a => Z.max a.1 acc) arrivals t.


(** *** Observations on a dispatch *)

(** The events a call added to the trace of [w]. *)
Definition events_since (w w' : World) : list event :=
  drop (length (trace w)) (trace w').

(** How many of the coming calls of [indexer.Index] the backend rejects
    before it accepts one. *)
Fixpoint leading_rejections (answers : list bool) : nat :=
  match answers with
  | false :: rest => S (leading_rejections rest)
  | _ => 0
  end.

(** The answers left once a document has been accepted. *)
Definition after_accept (answers : list bool) : list bool :=
  tl (drop (leading_rejections answers) answers).

(** For each document of a batch, the number of times it is rejected. *)
Fixpoint rejections_per_doc (batch : list payload) (answers : list bool)
  : list nat :=
  match batch with
  | [] => []
  | _ :: rest =>
      leading_rejections answers
      :: rejections_per_doc rest (after_accept answers)
  end.

Fixpoint answers_left (batch : list payload) (answers : list bool)
  : list bool :=
  match batch with
  | [] => answers
  | _ :: rest => answers_left rest (after_accept answers)
  end.

(** The events of the accepted call of [indexer.Index] for [doc]. *)
Definition accept_events (config : elasticConfig) (ix : BulkIndexer)
    (doc : payload) : list event :=
  [EvLog Debug "Sending to ES: %s" [];
   EvIndex ix (Index config) "log_line" doc true;
   EvLog Debug "Sent" []].

(** The events of [k] rejected calls for [doc], each followed by a
    [reconnect] that makes the next connection object, the first of them
    numbered [id], and of the accepted call that ends the retries. *)
Fixpoint doc_events (config : elasticConfig) (ix : BulkIndexer)
    (doc : payload) (id k : nat) : list event :=
  match k with
  | O => accept_events config ix doc
  | S k => retry_events config ix doc id ++ doc_events config ix doc (S id) k
  end.

Fixpoint batch_events (config : elasticConfig) (ix : BulkIndexer) (id : nat)
    (batch : list payload) (ks : list nat) : list event :=
  match batch, ks with
  | doc :: rest, k :: ks' =>
      doc_events config ix doc id k
      ++ batch_events config ix (k + id) rest ks'
  | _, _ => []
  end.

(** The calls of [indexer.Index] by document and result. *)
Definition call_results (evs : list event) : list (payload * bool) :=
  map (fun c => (c.1.2, c.2)) (index_calls evs).

(** [k] rejected calls for [doc] and then the accepted one. *)
Definition calls_for (doc : payload) (k : nat) : list (payload * bool) :=
  replicate k (doc, false) ++ [(doc, true)].

(** The calls of the deferred function of [sendToES]. *)
Definition is_shutdown (e : event) : bool :=
  match e with
  | EvFlush _ | EvStop _ => true
  | _ => false
  end.

Definition sum_list (ks : list nat) : nat := fold_right Nat.add 0%nat ks.

(** ** The stats reporter *)

Inductive reporter_state : Type :=
  | ReporterReturned    (* reporting is disabled: the function returned *)
  | ReporterBlocked     (* ranging over a nil channel: blocked for ever *)
  | ReporterTicking.    (* in the loop over the ticks *)

(** [time.Second * time.Duration(reportSec)], an [int64] in nanoseconds. *)
Definition report_period (reportSec : Z) : Z :=
  wrap64 (1000000000 * reportSec).

(** One line of the report: the two counters as read at the tick. *)
Definition report_line (s : counters) : event :=
  EvLog Info "processed messages from nats to es"
        [natsConsumed s; esSent s].

(** [reportStats] started at the instant [start], up to its first [ticks]
    ticks; [stats_at t] is what the shared counters hold at [t].  The lines
    logged, each with its instant.  [time.Tick] returns a nil channel for a
    duration that is not positive, and a loop over a nil channel never
    gets a value. *)
Definition reportStats (reportSec : Z) (start : Z) (stats_at : Z -> counters)
    (ticks : nat) : reporter_state * list (Z * event) :=
  if reportSec =? 0
  then (ReporterReturned, [(start, EvLog Debug "Stats reporting disabled" [])])
  else if report_period reportSec <=? 0 then (ReporterBlocked, [])
  else
    (ReporterTicking,
     map (fun k =>
            let t := start + (Z.of_nat k + 1) * report_period reportSec in
            (t, report_line (stats_at t)))
         (seq 0 ticks)).

(** ** Start-up: [run] *)

Module Run.

(** Modelled from the spec: the declaration of [configuration] is not in
    the files at hand; these are the fields [run] reads itself.  The fields
    it only hands on ([LogConf], [NatsConf]) are left to the environment
    below. *)
Record subjectAndGroup : Type := { Subject : string; Group : string }.

Record configuration : Type := {
  ReportSec : Z;
  ElasticConf : elasticConfig;
  Subjects : list subjectAndGroup
}.

(** What the functions [run] calls outside these files answer:
    [loadFromFile] (the configuration, or none for an error),
    [configureLogging], [messaging.ConnectToNats], the subscribe calls of
    the connection, and, for the consumer of each of them, the results its
    subscription hands to [sub.NextMsg]. *)
Record environment : Type := {
  loaded : option configuration;
  logging_ok : bool;
  nats_ok : bool;
  can_subscribe : subjectAndGroup -> bool;
  feed : subjectAndGroup -> list (option Msg * option nats_error)
}.

(** What the main goroutine does, in order. *)
Inductive step : Type :=
  | Log (l : level) (msg : string)
  | GoReportStats (reportSec : Z)
  | GoBatchAndSend (config : elasticConfig)
  | ConnectToNats
  | Subscribe (subject : string)
  | QueueSubscribe (subject group : string)
  | GoConsumer (pr : subjectAndGroup)
  | Wait.

Inductive run_state : Type :=
  | RunExited (msg : string)   (* a fatal log ended the process *)
  | RunPanics                  (* a goroutine was started on a nil message:
                                  its panic ends the process when it runs *)
  | RunWaiting                 (* blocked in [wg.Wait()] *)
  | RunReturned.               (* [run] returned *)

(** The subscribe call made for a subject and group. *)
Definition subscribe_call (pr : subjectAndGroup) : step :=
  if String.eqb (Group pr) "" then Subscribe (Subject pr)
  else QueueSubscribe (Subject pr) (Group pr).

(** The loop that builds the tailers: the steps taken, and the pairs a
    consumer closure was built for, or none when a subscribe call failed
    and the process exited. *)
Fixpoint build_tailers (can : subjectAndGroup -> bool)
    (pairs : list subjectAndGroup)
  : list step * option (list subjectAndGroup) :=
  match pairs with
  | [] => ([], Some [])
  | pr :: rest =>
      if can pr then
        let '(steps, funcs) := build_tailers can rest in
        (Log Debug "Connecting channel" :: subscribe_call pr :: steps,
         option_map (cons pr) funcs)
      else
        ([Log Debug "Connecting channel"; subscribe_call pr;
          Log Fatal "Failed to subscribe"], None)
  end.

(** Whether the closure of a consumer gets to [wg.Done()]: it does when
    its [consumeForever] returns. *)
Definition consumer_done (env : environment) (pr : subjectAndGroup) : bool :=
  match consumeForever (feed env pr) {| natsConsumed := 0; esSent := 0 |}
  with
  | (Returned _, _, _) => true
  | (Receiving, _, _) => false
  end.

(** Whether the loop of a consumer starts a goroutine on a nil message,
    as it does after a timeout of [sub.NextMsg]: that goroutine panics in
    [m.Data], and nothing recovers the panic. *)
Definition consumer_panics (env : environment) (pr : subjectAndGroup) : bool :=
  existsb (fun m : option Msg => match m with None => true | Some _ => false end)
    (consumeForever (feed env pr) {| natsConsumed := 0; esSent := 0 |}).1.2.

(** [run], by the state it ends in and the steps of the main goroutine up
    to there.  Where a consumer starts a goroutine on a nil message the
    steps are those up to [wg.Wait()], the main goroutine taken to get that
    far before the panic.  The goroutines of [reportStats] and
    [batchAndSend] are only started here: that the second ends the process
    when [reconnect] gives up is a matter of [sendToES], not of this
    function. *)
Definition run (env : environment) : run_state * list step :=
  match loaded env with
  | None =>
      (RunExited "Failed to load configuation: %s %v",
       [Log Fatal "Failed to load configuation: %s %v"])
  | Some config =>
      if negb (logging_ok env) then
        (RunExited "Failed to configure logging",
         [Log Fatal "Failed to configure logging"])
      else
        let started :=
          [Log Info "Configured - starting to connect and consume";
           GoReportStats (ReportSec config);
           GoBatchAndSend (ElasticConf config);
           Log Info "Connecting to Nats";
           ConnectToNats] in
        if negb (nats_ok env) then
          (RunExited "Failed to connect to nats",
           started ++ [Log Fatal "Failed to connect to nats"])
        else
          match build_tailers (can_subscribe env) (Subjects config) with
          | (steps, None) => (RunExited "Failed to subscribe", started ++ steps)
          | (steps, Some funcs) =>
              let launched := started ++ steps ++ map GoConsumer funcs in
              if existsb (consumer_panics env) funcs
              then (RunPanics, launched ++ [Wait])
              else if forallb (consumer_done env) funcs
              then (RunReturned, launched ++ [Wait; Log Info "Shutting down"])
              else (RunWaiting, launched ++ [Wait])
          end
  end.

(** The consumers started and the subscribe calls made, in order. *)
Definition consumers_started (steps : list step) : list subjectAndGroup :=
  omap (fun s => match s with GoConsumer p => Some p | _ => None end) steps.

Definition subscribe_calls (steps : list step) : list step :=
  List.filter (fun s => match s with
                        | Subscribe _ | QueueSubscribe _ _ => true
                        | _ => false
                        end) steps.

(** The goroutines of the pipeline that are started before NATS is
    reached. *)
Definition background_started (steps : list step) : list step :=
  List.filter (fun s => match s with
                        | GoReportStats _ | GoBatchAndSend _ => true
                        | _ => false
                        end) steps.

End Run.

(** Two subjects, the second shared by a queue group; NATS refuses no
    subscription and delivers nothing. *)
Definition sample_run_config : Run.configuration :=
  {| Run.ReportSec := 30; Run.ElasticConf := sample_config;
     Run.Subjects := [ {| Run.Subject := "events"; Run.Group := "" |};
                       {| Run.Subject := "logs"; Run.Group := "workers" |} ] |}.

Definition sample_environment : Run.environment :=
  {| Run.loaded := Some sample_run_config;
     Run.logging_ok := true;
     Run.nats_ok := true;
     Run.can_subscribe := fun _ => true;
     Run.feed := fun _ => [] |}.

(** The same, but the subject logs cannot be subscribed to. *)
Definition refusing_environment : Run.environment :=
  {| Run.loaded := Some sample_run_config;
     Run.logging_ok := true;
     Run.nats_ok := true;
     Run.can_subscribe := fun pr => negb (String.eqb (Run.Subject pr) "logs");
     Run.feed := fun _ => [] |}.

(** An object whose two members have names that are not UTF-8: the byte
    255 and the byte 254. *)
Definition ill_formed_names_body : string :=
  "{" +:+ quoted (String (Ascii.ascii_of_N 255) EmptyString) +:+ ":1,"
  +:+ quoted (String (Ascii.ascii_of_N 254) EmptyString) +:+ ":2}".

(** The same as the first, but every subscription delivers one message,
    and then nothing more. *)
Definition delivering_environment : Run.environment :=
  {| Run.loaded := Some sample_run_config;
     Run.logging_ok := true;
     Run.nats_ok := true;
     Run.can_subscribe := fun _ => true;
     Run.feed := fun pr =>
       [delivered {| Subject := Run.Subject pr; Data := "a" |}] |}.

(** The same as the first, but every [sub.NextMsg] times out at once. *)
Definition timing_out_environment : Run.environment :=
  {| Run.loaded := Some sample_run_config;
     Run.logging_ok := true;
     Run.nats_ok := true;
     Run.can_subscribe := fun _ => true;
     Run.feed := fun _ => [(None, Some ErrTimeout)] |}.

(** The same as the first, but every subscription is closed at once. *)
Definition closing_environment : Run.environment :=
  {| Run.loaded := Some sample_run_config;
     Run.logging_ok := true;
     Run.nats_ok := true;
     Run.can_subscribe := fun _ => true;
     Run.feed := fun _ => [(None, Some ErrConnectionClosed)] |}.
(** * Properties *)

(** ** The document builder *)

Lemma merge_members_lookup ms : forall (p : payload) (k : string),
  merge_members ms p !! k =
  match last_member k ms with Some v => Some v | None => p !! k end.
Proof.
  unfold merge_members.
  induction ms as [|[k' v] ms IH]; intros p k; simpl; [reflexivity|].
  rewrite IH. destruct (last_member k ms); [reflexivity|].
  rewrite lookup_insert. destruct (decide (k' = k)); reflexivity.
Qed.

Lemma newPayload_raw msg source now :
  newPayload msg source now !! rawMsgKey = Some (Json.JString msg).
Proof.
  unfold newPayload.
  rewrite lookup_insert_ne by discriminate.
  rewrite lookup_insert_ne by discriminate.
  apply lookup_insert_eq.
Qed.

Lemma newPayload_source msg source now :
  newPayload msg source now !! sourceKey = Some (Json.JString source).
Proof.
  unfold newPayload.
  rewrite lookup_insert_ne by discriminate.
  apply lookup_insert_eq.
Qed.

Lemma newPayload_timestamp msg source now :
  newPayload msg source now !! timestampKey
  = Some (Json.JString (format_rfc3339 now)).
Proof. unfold newPayload. apply lookup_insert_eq. Qed.

Lemma newPayload_other msg source now (k : string) :
  k <> rawMsgKey -> k <> sourceKey -> k <> timestampKey ->
  newPayload msg source now !! k = None.
Proof.
  intros H1 H2 H3. unfold newPayload.
  rewrite !lookup_insert_ne by congruence. apply lookup_empty.
Qed.

Lemma newPayload_dom msg source now :
  dom (newPayload msg source now)
  = ({[rawMsgKey; sourceKey; timestampKey]} : gset string).
Proof. unfold newPayload. rewrite !dom_insert_L, dom_empty_L. set_solver. Qed.

(** A text that is neither an object nor null leaves the document as
    [newPayload] made it, and the decode reports an error. *)
Lemma Unmarshal_not_object data (p : payload) :
  Json.decode data <> Some Json.JNull ->
  (forall ms, Json.decode data <> Some (Json.JObject ms)) ->
  (Unmarshal data p).1 <> None /\ (Unmarshal data p).2 = p.
Proof.
  intros Hnull Hobj. unfold Unmarshal.
  destruct (Json.decode data) as [[]|]; simpl;
    try (split; [discriminate | reflexivity]).
  - congruence.
  - exfalso. apply (Hobj members). reflexivity.
Qed.

Lemma buildDocument_object data subject now ms (k : string) :
  Json.decode data = Some (Json.JObject ms) ->
  buildDocument data subject now !! k =
  match last_member k (Json.stored_members ms) with
  | Some v => Some v
  | None => newPayload data subject now !! k
  end.
Proof.
  intros H. unfold buildDocument, Unmarshal. rewrite H. simpl.
  apply merge_members_lookup.
Qed.

(** C6 (as stated it fails).  A message whose bytes are the JSON literal
    null decodes without error and leaves a document with no field at all.
    And a decode failure does not always leave the three reserved fields
    alone: for an object with a number no [float64] can hold the decode
    reports an error, which is dropped, and the members of the object are
    in the document all the same, five fields in all. *)
Lemma C6_null_message_loses_reserved_fields :
  (Unmarshal "null" (newPayload "null" "events" sample_instant)).1 = None /\
  buildDocument "null" "events" sample_instant = ∅ /\
  ~ is_Some (buildDocument "null" "events" sample_instant !! rawMsgKey) /\
  ~ is_Some (buildDocument "null" "events" sample_instant !! sourceKey) /\
  ~ is_Some (buildDocument "null" "events" sample_instant !! timestampKey) /\
  (Unmarshal overflow_body
     (newPayload overflow_body "events" sample_instant)).1
  = Some (UnmarshalTypeError "number") /\
  buildDocument overflow_body "events" sample_instant !! "a"
  = Some Json.JNull /\
  buildDocument overflow_body "events" sample_instant !! "b"
  = Some (Json.JNumber "2") /\
  size (buildDocument overflow_body "events" sample_instant) = 5%nat.
Proof.
  assert (E : buildDocument "null" "events" sample_instant = ∅)
    by (vm_compute; reflexivity).
  rewrite E.
  split; [vm_compute; reflexivity|]. split; [reflexivity|].
  split; [rewrite lookup_empty; intros [v Hv]; discriminate|].
  split; [rewrite lookup_empty; intros [v Hv]; discriminate|].
  split; [rewrite lookup_empty; intros [v Hv]; discriminate|].
  repeat split; vm_compute; reflexivity.
Qed.

(** C6 (amended).  For every raw message whose bytes are not the JSON
    literal null, and every topic name, the document is built without any
    error surfacing and contains the reserved fields raw_message, source
    and timestamp, stored under the keys [@raw_msg], [@source] and
    [@timestamp]; when the bytes are not a JSON object the decode fails,
    the failure is dropped, and the document holds exactly these three
    fields, with the raw bytes as a string, the topic name and the
    creation time in RFC3339. *)
Theorem C6_document_has_reserved_fields :
  forall (data subject : string) (now : instant),
  Json.decode data <> Some Json.JNull ->
  is_Some (buildDocument data subject now !! rawMsgKey) /\
  is_Some (buildDocument data subject now !! sourceKey) /\
  is_Some (buildDocument data subject now !! timestampKey) /\
  ((forall ms, Json.decode data <> Some (Json.JObject ms)) ->
   (Unmarshal data (newPayload data subject now)).1 <> None /\
   buildDocument data subject now = newPayload data subject now /\
   dom (buildDocument data subject now)
     = ({[rawMsgKey; sourceKey; timestampKey]} : gset string) /\
   buildDocument data subject now !! rawMsgKey = Some (Json.JString data) /\
   buildDocument data subject now !! sourceKey = Some (Json.JString subject) /\
   buildDocument data subject now !! timestampKey
     = Some (Json.JString (format_rfc3339 now))).
Proof.
  intros data subject now Hnull.
  assert (Hkeys : forall k : string,
             is_Some (newPayload data subject now !! k) ->
             is_Some (buildDocument data subject now !! k)).
  { intros k Hk. unfold buildDocument, Unmarshal.
    destruct (Json.decode data) as [[]|] eqn:E; simpl; try exact Hk.
    - congruence.
    - rewrite merge_members_lookup.
      destruct (last_member k (Json.stored_members members));
        [eauto | exact Hk]. }
  split; [apply Hkeys; rewrite newPayload_raw; eauto|].
  split; [apply Hkeys; rewrite newPayload_source; eauto|].
  split; [apply Hkeys; rewrite newPayload_timestamp; eauto|].
  intros Hobj.
  destruct (Unmarshal_not_object data (newPayload data subject now)
              Hnull Hobj) as [Herr Hkeep].
  split; [exact Herr|]. unfold buildDocument. rewrite Hkeep.
  split; [reflexivity|]. split; [apply newPayload_dom|].
  split; [apply newPayload_raw|].
  split; [apply newPayload_source | apply newPayload_timestamp].
Qed.

(** The amended C6 at the message hello on the topic events. *)
Lemma C6_document_has_reserved_fields_witness :
  Json.decode "hello" <> Some Json.JNull /\
  (forall ms, Json.decode "hello" <> Some (Json.JObject ms)) /\
  buildDocument "hello" "events" sample_instant
  = newPayload "hello" "events" sample_instant /\
  buildDocument "hello" "events" sample_instant !! timestampKey
  = Some (Json.JString "2016-03-07T09:05:00-08:00").
Proof.
  assert (H : Json.decode "hello" <> Some Json.JNull)
    by (vm_compute; discriminate).
  assert (Ho : forall ms, Json.decode "hello" <> Some (Json.JObject ms))
    by (intros ms; vm_compute; discriminate).
  split; [exact H|]. split; [exact Ho|].
  destruct (C6_document_has_reserved_fields "hello" "events" sample_instant H)
    as (_ & _ & _ & Hfail).
  destruct (Hfail Ho) as (_ & Hsame & _ & _ & _ & Ht).
  split; [exact Hsame | exact Ht].
Defined.

(** In scenario 5 the member is named raw_message, which is not the key
    [@raw_msg] of the reserved field: that field still holds the raw
    body. *)
Lemma scenario5_raw_body_kept :
  rawMsgKey <> "raw_message" /\
  buildDocument scenario5_body "events" sample_instant !! rawMsgKey
    = Some (Json.JString scenario5_body).
Proof.
  split; [discriminate | vm_compute; reflexivity].
Qed.

(** C7.  When the raw bytes decode as an object, every top-level member
    is stored in the document under its own name, the last of the members
    of one name winning, so that a member named as a reserved field
    overwrites the reserved value, while every field no member names is
    kept.  In particular the body of scenario 5, with members user = a and
    raw_message = x, yields a document whose raw_message field is x; and a
    member under the reserved key [@raw_msg] replaces the raw body. *)
Theorem C7_decoded_fields_merge :
  (forall (data subject : string) (now : instant) ms (k : string) v,
     Json.decode data = Some (Json.JObject ms) ->
     last_member k (Json.stored_members ms) = Some v ->
     buildDocument data subject now !! k = Some v) /\
  (forall (data subject : string) (now : instant) ms (k : string),
     Json.decode data = Some (Json.JObject ms) ->
     last_member k (Json.stored_members ms) = None ->
     buildDocument data subject now !! k
     = newPayload data subject now !! k) /\
  buildDocument scenario5_body "events" sample_instant !! "raw_message"
    = Some (Json.JString "x") /\
  buildDocument scenario5_body "events" sample_instant !! "user"
    = Some (Json.JString "a") /\
  buildDocument reserved_key_body "events" sample_instant !! rawMsgKey
    = Some (Json.JString "x").
Proof.
  split; [|split].
  - intros data subject now ms k v H Hlast.
    rewrite (buildDocument_object _ _ _ _ _ H), Hlast. reflexivity.
  - intros data subject now ms k H Hlast.
    rewrite (buildDocument_object _ _ _ _ _ H), Hlast. reflexivity.
  - repeat split; vm_compute; reflexivity.
Qed.

(** C7 at an object that sets the reserved key, and at its field user. *)
Lemma C7_decoded_fields_merge_witness :
  (Json.decode reserved_key_body
   = Some (Json.JObject [("user", Json.JString "a");
                         (rawMsgKey, Json.JString "x")]) /\
   last_member rawMsgKey
     (Json.stored_members [("user", Json.JString "a");
                           (rawMsgKey, Json.JString "x")])
   = Some (Json.JString "x") /\
   buildDocument reserved_key_body "events" sample_instant !! rawMsgKey
   = Some (Json.JString "x")) /\
  (last_member sourceKey
     (Json.stored_members [("user", Json.JString "a");
                           (rawMsgKey, Json.JString "x")]) = None /\
   buildDocument reserved_key_body "events" sample_instant !! sourceKey
   = newPayload reserved_key_body "events" sample_instant !! sourceKey).
Proof.
  assert (H : Json.decode reserved_key_body
              = Some (Json.JObject [("user", Json.JString "a");
                                    (rawMsgKey, Json.JString "x")]))
    by (vm_compute; reflexivity).
  assert (Hl : last_member rawMsgKey
                 (Json.stored_members [("user", Json.JString "a");
                                       (rawMsgKey, Json.JString "x")])
               = Some (Json.JString "x")) by reflexivity.
  assert (Hn : last_member sourceKey
                 (Json.stored_members [("user", Json.JString "a");
                                       (rawMsgKey, Json.JString "x")])
               = None) by reflexivity.
  split.
  - split; [exact H|]. split; [exact Hl|].
    exact (proj1 C7_decoded_fields_merge reserved_key_body "events"
             sample_instant _ rawMsgKey _ H Hl).
  - split; [exact Hn|].
    exact (proj1 (proj2 C7_decoded_fields_merge) reserved_key_body "events"
             sample_instant _ sourceKey H Hn).
Defined.

(** ** The consumer loop *)

(** [consumeForever] is handed the counters and leaves them as they are. *)
Lemma consumeForever_stats results : forall (stats : counters),
  (consumeForever results stats).2 = stats.
Proof.
  induction results as [|[m e] rest IH]; intros stats; simpl; [reflexivity|].
  specialize (IH stats).
  destruct e as [[]|]; simpl; try reflexivity;
    destruct (consumeForever rest stats) as [[a b] c]; exact IH.
Qed.

(** C1 (the code breaks it).  When [sub.NextMsg] times out, [m] is nil and
    the loop neither returns nor goes back to receive: it falls through to
    the [go] statement, and the goroutine it starts dereferences the nil
    message, which panics. *)
Theorem C1_timeout_spawns_task_on_nil_message :
  forall (rest : list (option Msg * option nats_error)) (stats : counters),
  (exists st spawned,
     consumeForever ((None, Some ErrTimeout) :: rest) stats
     = (st, None :: spawned, stats)) /\
  (forall now, consumeForever_task now None = NilDereference) /\
  run_schedule sample_config sample_instant [(None, Some ErrTimeout)] = None.
Proof.
  intros rest stats. split; [|split; reflexivity].
  simpl. pose proof (consumeForever_stats rest stats) as H.
  destruct (consumeForever rest stats) as [[st spawned] stats'].
  simpl in H. subst stats'. eauto.
Qed.

(** ** The batching loop *)

Lemma batchAndSend_loop_bounds config cases : forall batch ds final,
  1 <= BatchSize config ->
  Z.of_nat (length batch) < BatchSize config ->
  batchAndSend_loop config batch cases = (ds, final) ->
  Forall (within_bounds config) ds /\
  Z.of_nat (length final) < BatchSize config.
Proof.
  induction cases as [|c rest IH]; intros batch ds final Hsize Hopen Hrun;
    simpl in Hrun.
  - inversion Hrun; subst. split; [constructor | assumption].
  - destruct (batchAndSend_iter config batch c) as [d batch'] eqn:Hiter.
    destruct (batchAndSend_loop config batch' rest) as [ds' final'] eqn:Hrest.
    inversion Hrun; subst; clear Hrun.
    destruct c as [p|]; simpl in Hiter.
    + rewrite length_app in Hiter. simpl in Hiter.
      destruct (BatchSize config <=? Z.of_nat (length batch + 1)) eqn:Hfull;
        inversion Hiter; subst; clear Hiter.
      * apply Z.leb_le in Hfull.
        destruct (IH [] ds' final Hsize) as [Hall Hfin];
          [simpl; lia | assumption |].
        split; [|assumption]. constructor; [|assumption].
        unfold within_bounds; simpl. rewrite length_app; simpl. lia.
      * apply Z.leb_gt in Hfull.
        apply (IH (batch ++ [p])); try assumption.
        rewrite length_app; simpl. lia.
    + inversion Hiter; subst; clear Hiter.
      destruct (IH [] ds' final Hsize) as [Hall Hfin];
        [simpl; lia | assumption |].
      split; [|assumption]. constructor; [|assumption].
      unfold within_bounds; simpl. lia.
Qed.

(** C8 (as stated it fails).  With a batch size of zero, the value an
    absent [batch_size] setting has, every arriving document is dispatched
    at once as a size-triggered batch of one document, more than the batch
    size, and a timeout dispatches an empty batch, not fewer than the batch
    size. *)
Lemma C8_zero_batch_size_breaks_bounds :
  batchAndSend zero_batch_config [Incoming ∅; TimerFired]
  = Some ([{| why := BySize; docs := [∅] |};
           {| why := ByTimeout; docs := [] |}], []) /\
  ~ (1 <= Z.of_nat (length [(∅ : payload)]) <= BatchSize zero_batch_config) /\
  ~ (0 <= Z.of_nat (length ([] : list payload)) < BatchSize zero_batch_config).
Proof.
  split; [reflexivity|]. split; simpl; lia.
Qed.

(** C8 (amended).  When the batch size is at least 1: every batch the
    aggregator dispatches because of the size threshold has between 1 and
    [batchSize] documents, every batch it dispatches because of the timeout
    has fewer than [batchSize] documents, possibly none; and after either
    flush the open batch is a fresh empty one. *)
Theorem C8_dispatched_batch_bounds :
  forall (config : elasticConfig) (cases : list select_case),
  1 <= BatchSize config ->
  (exists ds final,
     batchAndSend config cases = Some (ds, final) /\
     Forall (within_bounds config) ds) /\
  (forall batch c d batch',
     batchAndSend_iter config batch c = (Some d, batch') -> batch' = []).
Proof.
  intros config cases Hsize. split.
  - unfold batchAndSend.
    destruct (BatchSize config <? 0) eqn:Hneg;
      [apply Z.ltb_lt in Hneg; lia|].
    destruct (batchAndSend_loop config [] cases) as [ds final] eqn:Hrun.
    exists ds, final. split; [reflexivity|].
    apply (batchAndSend_loop_bounds config cases [] ds final);
      [assumption | simpl; lia | assumption].
  - intros batch c d batch' H. destruct c as [p|]; simpl in H.
    + destruct (BatchSize config <=? Z.of_nat (length (batch ++ [p])));
        inversion H; reflexivity.
    + inversion H; reflexivity.
Qed.

(** The amended C8 at a batch size of two. *)
Lemma C8_dispatched_batch_bounds_witness :
  1 <= BatchSize sample_config /\
  exists ds final,
    batchAndSend sample_config
      [Incoming ∅; Incoming ∅; Incoming ∅; TimerFired] = Some (ds, final) /\
    Forall (within_bounds sample_config) ds.
Proof.
  assert (H : 1 <= BatchSize sample_config) by (simpl; lia).
  split; [exact H|].
  exact (proj1 (C8_dispatched_batch_bounds sample_config
                  [Incoming ∅; Incoming ∅; Incoming ∅; TimerFired] H)).
Defined.

(** *** The loop on a clock *)





(** ** The dispatcher *)

Ltac run_steps := unfold bind, log, fatal, emit, ret; simpl.

Lemma accepted_app evs1 evs2 :
  accepted (evs1 ++ evs2) = (accepted evs1 + accepted evs2)%nat.
Proof. unfold accepted. now rewrite List.filter_app, length_app. Qed.

Lemma attempts_app evs1 evs2 :
  attempts (evs1 ++ evs2) = (attempts evs1 + attempts evs2)%nat.
Proof. unfold attempts. now rewrite List.filter_app, length_app. Qed.

Lemma index_calls_app evs1 evs2 :
  index_calls (evs1 ++ evs2) = index_calls evs1 ++ index_calls evs2.
Proof. unfold index_calls. apply omap_app. Qed.

Lemma iter_add {A} (f : A -> A) (n m : nat) (x : A) :
  Nat.iter (n + m) f x = Nat.iter m f (Nat.iter n f x).
Proof.
  induction m as [|m IH]; simpl.
  - now rewrite Nat.add_0_r.
  - rewrite Nat.add_succ_r. simpl. now rewrite IH.
Qed.

Lemma effect_silent w w' evs :
  trace w' = trace w ++ evs -> stats w' = stats w -> accepted evs = 0%nat ->
  effect w w' evs.
Proof.
  intros Ht Hs Ha. constructor; [exact Ht | now rewrite Hs |].
  rewrite Ha, Hs. reflexivity.
Qed.

Lemma effect_trans w1 w2 w3 evs1 evs2 :
  effect w1 w2 evs1 -> effect w2 w3 evs2 -> effect w1 w3 (evs1 ++ evs2).
Proof.
  intros [T1 C1 S1] [T2 C2 S2]. constructor.
  - rewrite T2, T1. now rewrite app_assoc.
  - now rewrite C2.
  - rewrite accepted_app, iter_add, S2, S1. reflexivity.
Qed.

Lemma connectToES_eq config w :
  connectToES config w
  = (Ok (made_conn config (next_conn w), None),
     advanced w 1 (connect_events config (next_conn w))).
Proof.
  unfold connectToES, NewConn, advanced, connect_events.
  run_steps. unfold made_conn.
  destruct (0 <? Port config), (Trace config); simpl;
    rewrite <- app_assoc; reflexivity.
Qed.

#[local] Arguments connectToES : simpl never.

(** With a budget of at least one attempt, [reconnect] returns on its
    first attempt. *)
Lemma reconnect_first_attempt config w :
  1 <= ReconnectAttempts config ->
  reconnect config w
  = (Ok (made_conn config (next_conn w)),
     advanced w 1
       (EvLog Debug "reconnecting attempt %d/%d" [1; ReconnectAttempts config]
        :: connect_events config (next_conn w)
        ++ [EvLog Info "Reconnected after %d attempts" [1]])).
Proof.
  intros H. unfold reconnect.
  destruct (Z.to_nat (ReconnectAttempts config)) as [|n] eqn:E; [lia|].
  cbn [reconnect_loop]. unfold bind, log, emit. cbn -[connectToES].
  rewrite connectToES_eq. unfold advanced. cbn.
  rewrite <- !app_assoc. reflexivity.
Qed.

(** With no budget, [reconnect] makes no attempt and the process exits. *)
Lemma reconnect_no_budget config w :
  ReconnectAttempts config <= 0 ->
  reconnect config w
  = (Exited reconnect_failure,
     advanced w 0 [EvLog Fatal reconnect_failure [ReconnectAttempts config]]).
Proof.
  intros H. unfold reconnect.
  destruct (Z.to_nat (ReconnectAttempts config)) as [|n] eqn:E; [|lia].
  reflexivity.
Qed.

#[local] Arguments reconnect : simpl never.

Lemma send_doc_accepted config ix client doc answers w :
  match answers with false :: _ => False | _ => True end ->
  send_doc config ix client doc answers w
  = (Ok (client, tl answers),
     {| stats := {| natsConsumed := natsConsumed (stats w);
                    esSent := incr64 (esSent (stats w)) |};
        next_conn := next_conn w;
        trace := trace w ++
                 [EvLog Debug "Sending to ES: %s" [];
                  EvIndex ix (Index config) "log_line" doc true;
                  EvLog Debug "Sent" []] |}).
Proof.
  intros H. destruct answers as [|[] rest]; [| |contradiction];
    cbn; rewrite <- !app_assoc; reflexivity.
Qed.

Lemma send_doc_effect answers : forall config ix client doc w r w',
  send_doc config ix client doc answers w = (r, w') ->
  exists evs,
    effect w w' evs /\
    Forall (through ix doc) (index_calls evs) /\
    match r with
    | Ok _ => accepted evs = 1%nat
    | Exited msg => msg = reconnect_failure /\ accepted evs = 0%nat
    end.
Proof.
  assert (Hok : forall config ix client doc ans w r w',
             match ans with false :: _ => False | _ => True end ->
             send_doc config ix client doc ans w = (r, w') ->
             exists evs,
               effect w w' evs /\
               Forall (through ix doc) (index_calls evs) /\
               match r with
               | Ok _ => accepted evs = 1%nat
               | Exited msg => msg = reconnect_failure /\ accepted evs = 0%nat
               end).
  { intros config ix client doc ans w r w' Hshape H.
    rewrite send_doc_accepted in H by exact Hshape.
    inversion H; subst; clear H.
    eexists. split; [|split].
    - constructor; simpl; reflexivity.
    - repeat constructor.
    - reflexivity. }
  induction answers as [|a rest IH]; intros config ix client doc w r w' H.
  - exact (Hok config ix client doc [] w r w' I H).
  - destruct a; [exact (Hok config ix client doc (true :: rest) w r w' I H)|].
    cbn [send_doc] in H. unfold bind, log, emit in H. cbn -[reconnect] in H.
    destruct (Z_le_gt_dec 1 (ReconnectAttempts config)) as [Hb|Hb].
    + rewrite reconnect_first_attempt in H by exact Hb.
      apply IH in H. destruct H as (evs & He & Hix & Hr).
      exists (retry_events config ix doc (next_conn w) ++ evs).
      split; [|split].
      * eapply effect_trans; [|exact He].
        apply effect_silent; cbn; [|reflexivity|reflexivity].
        rewrite <- !app_assoc. reflexivity.
      * rewrite index_calls_app. apply Forall_app. split; [|exact Hix].
        cbn. repeat constructor.
      * destruct r; rewrite accepted_app; cbn; exact Hr.
    + rewrite reconnect_no_budget in H by lia.
      inversion H; subst; clear H.
      exists (give_up_events config ix doc). split; [|split].
      * apply effect_silent; cbn; [|reflexivity|reflexivity].
        rewrite <- !app_assoc. reflexivity.
      * cbn. repeat constructor.
      * split; reflexivity.
Qed.

#[local] Arguments send_doc : simpl never.

Lemma send_batch_effect batch : forall config ix client answers w r w',
  send_batch config ix client batch answers w = (r, w') ->
  exists evs,
    effect w w' evs /\
    Forall (via ix) (index_calls evs) /\
    match r with
    | Ok _ => accepted evs = length batch
    | Exited msg =>
        msg = reconnect_failure /\ (accepted evs < length batch)%nat
    end.
Proof.
  induction batch as [|doc rest IH]; intros config ix client answers w r w' H.
  - inversion H; subst; clear H. exists [].
    split; [|split; [constructor | reflexivity]].
    apply effect_silent; [now rewrite app_nil_r | reflexivity | reflexivity].
  - cbn [send_batch] in H. unfold bind in H.
    destruct (send_doc config ix client doc answers w) as [r1 w1] eqn:E1.
    apply send_doc_effect in E1. destruct E1 as (evs1 & He1 & Hix1 & Hr1).
    assert (Hvia1 : Forall (via ix) (index_calls evs1)).
    { eapply Forall_impl; [exact Hix1|]. intros c [Hc _]. exact Hc. }
    destruct r1 as [[client' answers']|msg].
    + cbn in H. apply IH in H. destruct H as (evs2 & He2 & Hix2 & Hr2).
      exists (evs1 ++ evs2). split; [|split].
      * eapply effect_trans; eassumption.
      * rewrite index_calls_app. apply Forall_app. now split.
      * rewrite accepted_app, Hr1. destruct r; cbn.
        -- now rewrite Hr2.
        -- destruct Hr2 as [-> Hlt]. split; [reflexivity | lia].
    + inversion H; subst; clear H. destruct Hr1 as [-> Hacc].
      exists evs1. split; [exact He1|]. split; [exact Hvia1|].
      split; [reflexivity | cbn; lia].
Qed.

#[local] Arguments send_batch : simpl never.

Lemma sendToES_effect config batch answers w r w' :
  sendToES config batch answers w = (r, w') ->
  exists evs,
    effect w w' evs /\
    Forall (via (dispatch_indexer config (next_conn w))) (index_calls evs) /\
    match r with
    | Ok _ => accepted evs = length batch
    | Exited msg =>
        msg = reconnect_failure /\ (accepted evs < length batch)%nat
    end.
Proof.
  intros H. destruct batch as [|doc rest].
  - inversion H; subst; clear H. exists [].
    split; [|split; [constructor | reflexivity]].
    apply effect_silent; [now rewrite app_nil_r | reflexivity | reflexivity].
  - unfold sendToES in H. cbn [length Nat.eqb] in H.
    unfold bind at 1 in H. rewrite connectToES_eq in H.
    unfold NewBulkIndexerErrors, bind, log, emit, ret in H.
    cbn -[send_batch] in H.
    match type of H with
    | context [send_batch ?c ?i ?cl ?b ?a ?w0] =>
        assert (Hs : effect w w0 (start_events config (next_conn w)))
          by (apply effect_silent; cbn; [|reflexivity|reflexivity];
              rewrite <- !app_assoc; reflexivity);
        destruct (send_batch c i cl b a w0) as [r1 w1] eqn:E1
    end.
    apply send_batch_effect in E1. destruct E1 as (evs & He & Hix & Hr).
    pose proof (effect_trans _ _ _ _ _ Hs He) as Hse.
    destruct r1 as [[client' answers']|msg]; inversion H; subst; clear H.
    + exists ((start_events config (next_conn w) ++ evs)
              ++ stop_events (dispatch_indexer config (next_conn w))).
      split; [|split].
      * eapply effect_trans; [exact Hse|].
        apply effect_silent; cbn; [|reflexivity|reflexivity].
        rewrite <- !app_assoc. reflexivity.
      * rewrite !index_calls_app. apply Forall_app. split; [|constructor].
        apply Forall_app. split; [constructor | exact Hix].
      * rewrite !accepted_app, Hr. cbn. lia.
    + exists (start_events config (next_conn w) ++ evs).
      split; [exact Hse|]. split.
      * rewrite !index_calls_app. apply Forall_app. split; [constructor|].
        exact Hix.
      * rewrite accepted_app. cbn. exact Hr.
Qed.

(** C9.  Dispatching an empty batch returns at once and leaves the world
    as it was: no connection object is made, no bulk indexer is made or
    started, no answer of the backend is used, and neither counter
    changes.  In particular the empty batch a timeout flushes when nothing
    arrived costs nothing. *)
Theorem C9_empty_batch_is_noop :
  forall (config : elasticConfig) (answers : list bool) (w : World),
  sendToES config [] answers w = (Ok answers, w) /\
  new_conn_ids (trace (sendToES config [] answers w).2)
    = new_conn_ids (trace w) /\
  stats (sendToES config [] answers w).2 = stats w /\
  run_dispatches config (batchAndSend_loop config [] [TimerFired]).1 w
    = (Ok tt, w).
Proof.
  intros config answers w.
  assert (E : sendToES config [] answers w = (Ok answers, w)).
  { unfold sendToES. simpl. reflexivity. }
  rewrite E. simpl. repeat split; reflexivity.
Qed.

(** C10.  [connectToES] returns a nil error for every configuration, and
    makes a connection object without sending anything; so [sendToES]
    never exits on its failed-to-connect branch; and [reconnect], with a
    budget of at least one attempt, returns a connection on its first
    attempt. *)
Theorem C10_connect_never_fails :
  (forall config w,
     connectToES config w
     = (Ok (made_conn config (next_conn w), None),
        advanced w 1 (connect_events config (next_conn w)))) /\
  (forall config batch answers w,
     (sendToES config batch answers w).1 <> Exited connect_failure) /\
  (forall config w,
     1 <= ReconnectAttempts config ->
     exists evs,
       reconnect config w
       = (Ok (made_conn config (next_conn w)), advanced w 1 evs) /\
       attempts evs = 1%nat).
Proof.
  split; [exact connectToES_eq|]. split.
  - intros config batch answers w.
    destruct (sendToES config batch answers w) as [r w'] eqn:E.
    apply sendToES_effect in E. destruct E as (evs & _ & _ & Hr).
    destruct r as [a|msg]; cbn; [discriminate|].
    destruct Hr as [-> _]. discriminate.
  - intros config w H. eexists. split.
    + apply reconnect_first_attempt. exact H.
    + reflexivity.
Qed.

(** C10 at a budget of three attempts. *)
Lemma C10_connect_never_fails_witness :
  1 <= ReconnectAttempts sample_config /\
  exists evs,
    reconnect sample_config initial_world
    = (Ok (made_conn sample_config 0), advanced initial_world 1 evs) /\
    attempts evs = 1%nat.
Proof.
  assert (H : 1 <= ReconnectAttempts sample_config) by (simpl; lia).
  split; [exact H|].
  exact (proj2 (proj2 C10_connect_never_fails) sample_config initial_world H).
Defined.

(** Every call of [indexer.Index] in a dispatch goes through the indexer
    made from the connection the dispatch opened first. *)
Lemma sendToES_single_indexer config batch answers w :
  exists evs,
    trace (sendToES config batch answers w).2 = trace w ++ evs /\
    Forall (via (dispatch_indexer config (next_conn w))) (index_calls evs).
Proof.
  destruct (sendToES config batch answers w) as [r w'] eqn:E.
  apply sendToES_effect in E. destruct E as (evs & [Ht _ _] & Hix & _).
  exists evs. split; assumption.
Qed.

(** C5 (the code breaks it).  One document, rejected once: [reconnect]
    makes connection 1, and the document is sent again through the indexer
    of connection 0, the one the dispatch opened first; the new connection
    is stored in [client] and used by nothing.  The sent counter goes up
    by one. *)
Theorem C5_resend_goes_through_first_connection :
  (sendToES sample_config [numbered "1"] [false] initial_world).1 = Ok [] /\
  new_conn_ids
    (trace (sendToES sample_config [numbered "1"] [false] initial_world).2)
  = [0; 1]%nat /\
  index_calls
    (trace (sendToES sample_config [numbered "1"] [false] initial_world).2)
  = [(dispatch_indexer sample_config 0, numbered "1", false);
     (dispatch_indexer sample_config 0, numbered "1", true)] /\
  conn_id (ix_conn (dispatch_indexer sample_config 0)) = 0%nat /\
  esSent
    (stats (sendToES sample_config [numbered "1"] [false] initial_world).2)
  = 1.
Proof. repeat split; vm_compute; reflexivity. Qed.

(** While the counter stays in range, [n] increments add [n]. *)
Lemma iter_incr64_in_range (n : nat) : forall x,
  - 2 ^ 63 <= x -> x + Z.of_nat n < 2 ^ 63 ->
  Nat.iter n incr64 x = x + Z.of_nat n.
Proof.
  induction n as [|n IH]; intros x Hlo Hhi.
  - simpl. lia.
  - rewrite Nat.iter_succ, IH by lia.
    unfold incr64, wrap64.
    replace (x + Z.of_nat n + 1 + 2 ^ 63)
      with (x + Z.of_nat (S n) + 2 ^ 63) by lia.
    rewrite Z.mod_small by lia. lia.
Qed.

(** C2 (the code breaks it).  Nothing writes the consumed counter:
    [consumeForever] is handed the counters and returns them as they were,
    and a dispatch leaves the consumed counter as it was.  A dispatch
    increments the sent counter exactly once for each call of
    [indexer.Index] that is accepted and never for a rejected call: when it
    returns, once per document of the batch, however many calls were
    rejected and retried.  So after one message was received, converted,
    batched and accepted by the backend, with the dispatch over and no
    retry under way, the sent counter is 1 and the consumed counter is
    still 0. *)
Theorem C2_consumed_is_never_incremented :
  (forall results stats, (consumeForever results stats).2 = stats) /\
  (forall config batch answers w,
     exists evs,
       trace (sendToES config batch answers w).2 = trace w ++ evs /\
       natsConsumed (stats (sendToES config batch answers w).2)
         = natsConsumed (stats w) /\
       esSent (stats (sendToES config batch answers w).2)
         = Nat.iter (accepted evs) incr64 (esSent (stats w)) /\
       match (sendToES config batch answers w).1 with
       | Ok _ => accepted evs = length batch
       | Exited _ => (accepted evs < length batch)%nat
       end) /\
  ((sendToES sample_config [numbered "1"; numbered "2"]
      [false; false; true; false] initial_world).1 = Ok [] /\
   rejected
     (trace (sendToES sample_config [numbered "1"; numbered "2"]
               [false; false; true; false] initial_world).2) = 3%nat /\
   stats (sendToES sample_config [numbered "1"; numbered "2"]
            [false; false; true; false] initial_world).2
   = {| natsConsumed := 0; esSent := 2 |}) /\
  (option_map (fun x => (x.1, stats x.2))
     (run_schedule sample_config sample_instant
        [(Some {| Subject := "events"; Data := "hello" |}, None)])
   = Some (Ok tt, {| natsConsumed := 0; esSent := 1 |}) /\
   natsConsumed {| natsConsumed := 0; esSent := 1 |}
   < esSent {| natsConsumed := 0; esSent := 1 |}).
Proof.
  split; [intros results stats; apply consumeForever_stats|]. split.
  - intros config batch answers w.
    destruct (sendToES config batch answers w) as [r w'] eqn:E.
    apply sendToES_effect in E. destruct E as (evs & [Ht Hc Hs] & _ & Hr).
    exists evs. cbn. repeat split; try assumption.
    destruct r; [exact Hr | exact (proj2 Hr)].
  - split; [repeat split; vm_compute; reflexivity|].
    split; [vm_compute; reflexivity | simpl; lia].
Qed.

(** *** Reconnecting *)

(** Attempts with a pause of the right length between them are delayed. *)
Example attempts_delayed_with_pause :
  attempts_delayed 2
    [EvLog Debug "reconnecting attempt %d/%d" [1; 3];
     EvLog Warn "Failed to reconnect attempt %d" [1];
     EvSleep 2;
     EvLog Debug "reconnecting attempt %d/%d" [2; 3]] = true.
Proof. reflexivity. Qed.

(** Two attempts in a row, with no pause, are not. *)
Example attempts_not_delayed_without_pause :
  attempts_delayed 2
    [EvLog Debug "reconnecting attempt %d/%d" [1; 3];
     EvLog Warn "Failed to reconnect attempt %d" [1];
     EvLog Debug "reconnecting attempt %d/%d" [2; 3]] = false.
Proof. reflexivity. Qed.

(** A rejected submission logs a warning and calls [reconnect]; the
    document is submitted again when that returns. *)
Lemma send_doc_rejected config ix client doc rest w :
  send_doc config ix client doc (false :: rest) w
  = match reconnect config
            (advanced w 0
               [EvLog Debug "Sending to ES: %s" [];
                EvIndex ix (Index config) "log_line" doc false;
                EvLog Warn "Error sending data to elasticsearch -- retrying"
                  []]) with
    | (Ok client', w') => send_doc config ix client' doc rest w'
    | (Exited msg, w') => (Exited msg, w')
    end.
Proof.
  unfold advanced, send_doc, bind, log, emit. cbn -[reconnect].
  rewrite <- !app_assoc. reflexivity.
Qed.



(** * Further properties *)

(** ** The batching loop *)

Lemma batchAndSend_loop_conserves config cases : forall batch,
  concat (map docs (batchAndSend_loop config batch cases).1)
    ++ (batchAndSend_loop config batch cases).2
  = batch ++ incoming_docs cases.
Proof.
  induction cases as [|c rest IH]; intros batch; simpl.
  - now rewrite app_nil_r.
  - destruct (batchAndSend_iter config batch c) as [d batch'] eqn:Hiter.
    specialize (IH batch').
    destruct (batchAndSend_loop config batch' rest) as [ds final].
    simpl in *. destruct c as [p|]; simpl in Hiter.
    + destruct (BatchSize config <=? Z.of_nat (length (batch ++ [p])));
        inversion Hiter; subst; clear Hiter; simpl.
      * rewrite <- !app_assoc. simpl in IH. rewrite IH. reflexivity.
      * rewrite IH, <- app_assoc. reflexivity.
    + inversion Hiter; subst; clear Hiter. simpl.
      rewrite <- app_assoc, IH. reflexivity.
Qed.

(** X1.  The aggregator neither loses, duplicates nor reorders documents:
    the batches it dispatched, one after the other, followed by the batch
    still open, are the documents it received, in the order it received
    them. *)
Theorem batchAndSend_conserves_documents :
  forall (config : elasticConfig) (cases : list select_case) ds final,
  batchAndSend config cases = Some (ds, final) ->
  concat (map docs ds) ++ final = incoming_docs cases.
Proof.
  intros config cases ds final H. unfold batchAndSend in H.
  destruct (BatchSize config <? 0); [discriminate|].
  pose proof (batchAndSend_loop_conserves config cases []) as Hc.
  destruct (batchAndSend_loop config [] cases) as [ds' final'].
  inversion H; subst. exact Hc.
Qed.

Lemma batchAndSend_conserves_documents_witness :
  batchAndSend sample_config
    [Incoming (numbered "1"); TimerFired; Incoming (numbered "2");
     Incoming (numbered "3"); Incoming (numbered "4")]
  = Some ([{| why := ByTimeout; docs := [numbered "1"] |};
           {| why := BySize; docs := [numbered "2"; numbered "3"] |}],
          [numbered "4"]) /\
  concat (map docs [{| why := ByTimeout; docs := [numbered "1"] |};
                    {| why := BySize;
                       docs := [numbered "2"; numbered "3"] |}])
    ++ [numbered "4"]
  = incoming_docs
      [Incoming (numbered "1"); TimerFired; Incoming (numbered "2");
       Incoming (numbered "3"); Incoming (numbered "4")].
Proof.
  assert (H : batchAndSend sample_config
                [Incoming (numbered "1"); TimerFired; Incoming (numbered "2");
                 Incoming (numbered "3"); Incoming (numbered "4")]
              = Some ([{| why := ByTimeout; docs := [numbered "1"] |};
                       {| why := BySize;
                          docs := [numbered "2"; numbered "3"] |}],
                      [numbered "4"])) by reflexivity.
  split; [exact H|].
  exact (batchAndSend_conserves_documents _ _ _ _ H).
Defined.

Lemma batchAndSend_loop_full config cases : forall batch,
  1 <= BatchSize config ->
  Z.of_nat (length batch) < BatchSize config ->
  Forall (full_if_by_size config) (batchAndSend_loop config batch cases).1 /\
  Z.of_nat (length (batchAndSend_loop config batch cases).2)
    < BatchSize config.
Proof.
  induction cases as [|c rest IH]; intros batch Hsize Hopen; simpl.
  - split; [constructor | assumption].
  - destruct (batchAndSend_iter config batch c) as [d batch'] eqn:Hiter.
    destruct c as [p|]; simpl in Hiter.
    + rewrite length_app in Hiter. simpl in Hiter.
      destruct (BatchSize config <=? Z.of_nat (length batch + 1)) eqn:Hfull;
        inversion Hiter; subst; clear Hiter.
      * apply Z.leb_le in Hfull.
        destruct (IH [] Hsize) as [Hall Hfin]; [simpl; lia|].
        destruct (batchAndSend_loop config [] rest) as [ds final].
        simpl in *. split; [|assumption]. constructor; [|assumption].
        unfold full_if_by_size; simpl. rewrite length_app; simpl. lia.
      * apply Z.leb_gt in Hfull.
        destruct (IH (batch ++ [p]) Hsize) as [Hall Hfin];
          [rewrite length_app; simpl; lia|].
        destruct (batchAndSend_loop config (batch ++ [p]) rest) as [ds final].
        simpl in *. split; assumption.
    + inversion Hiter; subst; clear Hiter.
      destruct (IH [] Hsize) as [Hall Hfin]; [simpl; lia|].
      destruct (batchAndSend_loop config [] rest) as [ds final].
      simpl in *. split; [|assumption]. constructor; [|assumption].
      exact I.
Qed.

(** X2.  With a batch size of at least 1, a batch dispatched because of
    the size threshold holds exactly [BatchSize] documents, and the batch
    left open always holds fewer. *)
Theorem batchAndSend_size_batches_are_full :
  forall (config : elasticConfig) (cases : list select_case) ds final,
  1 <= BatchSize config ->
  batchAndSend config cases = Some (ds, final) ->
  Forall (full_if_by_size config) ds /\
  Z.of_nat (length final) < BatchSize config.
Proof.
  intros config cases ds final Hsize H. unfold batchAndSend in H.
  destruct (BatchSize config <? 0); [discriminate|].
  pose proof (batchAndSend_loop_full config cases [] Hsize
                ltac:(simpl; lia)) as Hf.
  destruct (batchAndSend_loop config [] cases) as [ds' final'].
  inversion H; subst. exact Hf.
Qed.

Lemma batchAndSend_size_batches_are_full_witness :
  1 <= BatchSize sample_config /\
  batchAndSend sample_config
    [Incoming (numbered "1"); Incoming (numbered "2");
     Incoming (numbered "3")]
  = Some ([{| why := BySize; docs := [numbered "1"; numbered "2"] |}],
          [numbered "3"]) /\
  Forall (full_if_by_size sample_config)
    [{| why := BySize; docs := [numbered "1"; numbered "2"] |}] /\
  Z.of_nat (length [numbered "3"]) < BatchSize sample_config.
Proof.
  assert (Hs : 1 <= BatchSize sample_config) by (simpl; lia).
  assert (H : batchAndSend sample_config
                [Incoming (numbered "1"); Incoming (numbered "2");
                 Incoming (numbered "3")]
              = Some ([{| why := BySize;
                          docs := [numbered "1"; numbered "2"] |}],
                      [numbered "3"])) by reflexivity.
  split; [exact Hs|]. split; [exact H|].
  exact (batchAndSend_size_batches_are_full _ _ _ _ Hs H).
Defined.

Lemma batchAndSend_loop_unbatched config cases :
  BatchSize config <= 0 ->
  batchAndSend_loop config [] cases = (map dispatched_alone cases, []).
Proof.
  intros Hz. induction cases as [|c rest IH]; simpl; [reflexivity|].
  destruct c as [p|]; simpl.
  - replace (BatchSize config <=? Z.of_nat 1) with true
      by (symmetry; apply Z.leb_le; simpl; lia).
    cbv iota beta. rewrite IH. reflexivity.
  - rewrite IH. reflexivity.
Qed.

(** X3.  With a batch size of zero nothing is ever batched: every document
    is dispatched on its own the moment it arrives, as a size-triggered
    batch of one, every timeout dispatches an empty batch, and the open
    batch stays empty. *)
Theorem batchAndSend_zero_size_never_batches :
  forall (config : elasticConfig) (cases : list select_case),
  BatchSize config = 0 ->
  batchAndSend config cases = Some (map dispatched_alone cases, []).
Proof.
  intros config cases Hz. unfold batchAndSend. rewrite Hz. simpl.
  rewrite batchAndSend_loop_unbatched by lia. reflexivity.
Qed.

Lemma batchAndSend_zero_size_never_batches_witness :
  BatchSize zero_batch_config = 0 /\
  batchAndSend zero_batch_config
    [Incoming (numbered "1"); Incoming (numbered "2"); TimerFired]
  = Some ([{| why := BySize; docs := [numbered "1"] |};
           {| why := BySize; docs := [numbered "2"] |};
           {| why := ByTimeout; docs := [] |}], []).
Proof.
  split; [reflexivity|].
  exact (batchAndSend_zero_size_never_batches zero_batch_config
           [Incoming (numbered "1"); Incoming (numbered "2"); TimerFired]
           eq_refl).
Defined.

(** *** The loop on a clock *)

Lemma batchAndSend_timed_S n config st :
  batchAndSend_timed (S n) config st
  = let '(t', c, rest) := select_at config (clock st) (pending st) in
    let '(d, batch') := batchAndSend_iter config (open_batch st) c in
    let '(ds, final) :=
      batchAndSend_timed n config
        {| clock := t'; open_batch := batch'; pending := rest |} in
    (match d with Some d => (t', d) :: ds | None => ds end, final).
Proof. reflexivity. Qed.

(** Running [n + m] iterations is running [n] and then [m]. *)
Lemma batchAndSend_timed_add n m config : forall st,
  batchAndSend_timed (n + m) config st
  = let '(ds, st') := batchAndSend_timed n config st in
    let '(ds', st'') := batchAndSend_timed m config st' in
    (ds ++ ds', st'').
Proof.
  induction n as [|n IHn]; intros st.
  - change (0 + m)%nat with m. cbn [batchAndSend_timed].
    destruct (batchAndSend_timed m config st). reflexivity.
  - change (S n + m)%nat with (S (n + m)).
    rewrite !batchAndSend_timed_S.
    destruct (select_at config (clock st) (pending st)) as [[t' c] rest].
    destruct (batchAndSend_iter config (open_batch st) c) as [d b'].
    rewrite IHn.
    destruct (batchAndSend_timed n config
                {| clock := t'; open_batch := b'; pending := rest |})
      as [ds st'].
    destruct (batchAndSend_timed m config st') as [ds' st''].
    destruct d; reflexivity.
Qed.

(** While documents arrive in time and the batch does not fill up, the
    loop only collects them. *)
Lemma batchAndSend_timed_collects config arrivals : forall t batch,
  arrivals_within (timer_period config) t arrivals ->
  Z.of_nat (length batch + length arrivals) < BatchSize config ->
  batchAndSend_timed (length arrivals) config
    {| clock := t; open_batch := batch; pending := arrivals |}
  = ([], {| clock := last_handled t arrivals;
            open_batch := batch ++ map snd arrivals;
            pending := [] |}).
Proof.
  unfold timer_period.
  induction arrivals as [|[a p] rest IH]; intros t batch Hin Hlen; simpl.
  - now rewrite app_nil_r.
  - simpl in Hin. destruct Hin as [Ha Hrest].
    apply Z.ltb_lt in Ha. rewrite Ha.
    assert (Hit : batchAndSend_iter config batch (Incoming p)
                  = (None, batch ++ [p])).
    { cbn [batchAndSend_iter].
      replace (BatchSize config <=? Z.of_nat (length (batch ++ [p])))
        with false; [reflexivity|].
      symmetry. apply Z.leb_gt. rewrite length_app. simpl in *. lia. }
    rewrite Hit.
    rewrite (IH (Z.max a t) (batch ++ [p]) Hrest)
      by (rewrite length_app; simpl in *; lia).
    rewrite <- app_assoc. reflexivity.
Qed.

(** X4.  Fewer documents than the batch size, each arriving before the
    timer of the iteration that takes it is due, and then silence: nothing
    is dispatched while they arrive, and one timer period after the last of
    them was taken the loop dispatches them all, in order, as one
    timeout-triggered batch. *)
Theorem partial_batch_flushed_after_last_arrival :
  forall (config : elasticConfig) (t : Z) (arrivals : list (Z * payload)),
  arrivals_within (timer_period config) t arrivals ->
  Z.of_nat (length arrivals) < BatchSize config ->
  batchAndSend_timed (S (length arrivals)) config
    {| clock := t; open_batch := []; pending := arrivals |}
  = ([(last_handled t arrivals + timer_period config,
       {| why := ByTimeout; docs := map snd arrivals |})],
     {| clock := last_handled t arrivals + timer_period config;
        open_batch := []; pending := [] |}).
Proof.
  intros config t arrivals Hin Hlen.
  replace (S (length arrivals)) with (length arrivals + 1)%nat by lia.
  rewrite batchAndSend_timed_add.
  rewrite (batchAndSend_timed_collects config arrivals t [] Hin)
    by (simpl; lia).
  reflexivity.
Qed.

Lemma partial_batch_flushed_after_last_arrival_witness :
  arrivals_within (timer_period trickle_config) 0 trickle /\
  Z.of_nat (length trickle) < BatchSize trickle_config /\
  batchAndSend_timed 4 trickle_config
    {| clock := 0; open_batch := []; pending := trickle |}
  = ([(last_handled 0 trickle + timer_period trickle_config,
       {| why := ByTimeout; docs := map snd trickle |})],
     {| clock := last_handled 0 trickle + timer_period trickle_config;
        open_batch := []; pending := [] |}).
Proof.
  assert (Ha : arrivals_within (timer_period trickle_config) 0 trickle)
    by (vm_compute; repeat split; reflexivity).
  assert (Hl : Z.of_nat (length trickle) < BatchSize trickle_config)
    by (vm_compute; reflexivity).
  split; [exact Ha|]. split; [exact Hl|].
  exact (partial_batch_flushed_after_last_arrival trickle_config 0 trickle
           Ha Hl).
Defined.

Lemma batchAndSend_timed_fills config arrivals : forall t batch,
  arrivals <> [] ->
  arrivals_within (timer_period config) t arrivals ->
  Z.of_nat (length batch + length arrivals) = BatchSize config ->
  batchAndSend_timed (length arrivals) config
    {| clock := t; open_batch := batch; pending := arrivals |}
  = ([(last_handled t arrivals,
       {| why := BySize; docs := batch ++ map snd arrivals |})],
     {| clock := last_handled t arrivals; open_batch := [];
        pending := [] |}).
Proof.
  unfold timer_period.
  induction arrivals as [|[a p] rest IH]; intros t batch Hne Hin Hlen;
    [congruence|].
  cbn [length]. rewrite batchAndSend_timed_S. cbn [clock pending open_batch].
  cbn [select_at]. simpl in Hin. destruct Hin as [Ha Hrest].
  apply Z.ltb_lt in Ha. rewrite Ha. cbn [batchAndSend_iter].
  destruct rest as [|x rest'].
  - replace (BatchSize config <=? Z.of_nat (length (batch ++ [p])))
      with true
      by (symmetry; apply Z.leb_le; rewrite length_app; simpl in *; lia).
    reflexivity.
  - replace (BatchSize config <=? Z.of_nat (length (batch ++ [p])))
      with false
      by (symmetry; apply Z.leb_gt; rewrite length_app; simpl in *; lia).
    rewrite (IH (Z.max a t) (batch ++ [p])); [|congruence|exact Hrest|].
    + rewrite <- app_assoc. reflexivity.
    + rewrite length_app. simpl in *. lia.
Qed.

(** X5.  As many documents as the batch size, each arriving before the
    timer of the iteration that takes it is due: the loop dispatches them
    all, in order, as one size-triggered batch at the very instant it takes
    the last of them, without waiting for any timer, and starts again with
    an empty batch. *)
Theorem full_batch_dispatched_on_last_arrival :
  forall (config : elasticConfig) (t : Z) (arrivals : list (Z * payload)),
  arrivals <> [] ->
  arrivals_within (timer_period config) t arrivals ->
  Z.of_nat (length arrivals) = BatchSize config ->
  batchAndSend_timed (length arrivals) config
    {| clock := t; open_batch := []; pending := arrivals |}
  = ([(last_handled t arrivals,
       {| why := BySize; docs := map snd arrivals |})],
     {| clock := last_handled t arrivals; open_batch := [];
        pending := [] |}).
Proof.
  intros config t arrivals Hne Hin Hlen.
  exact (batchAndSend_timed_fills config arrivals t [] Hne Hin Hlen).
Qed.

Lemma full_batch_dispatched_on_last_arrival_witness :
  [(seconds 1, numbered "1"); (seconds 3, numbered "2")] <> [] /\
  arrivals_within (timer_period sample_config) 0
    [(seconds 1, numbered "1"); (seconds 3, numbered "2")] /\
  Z.of_nat (length [(seconds 1, numbered "1"); (seconds 3, numbered "2")])
  = BatchSize sample_config /\
  batchAndSend_timed 2 sample_config
    {| clock := 0; open_batch := [];
       pending := [(seconds 1, numbered "1"); (seconds 3, numbered "2")] |}
  = ([(seconds 3,
       {| why := BySize; docs := [numbered "1"; numbered "2"] |})],
     {| clock := seconds 3; open_batch := []; pending := [] |}).
Proof.
  assert (Hn : [(seconds 1, numbered "1"); (seconds 3, numbered "2")] <> [])
    by discriminate.
  assert (Ha : arrivals_within (timer_period sample_config) 0
                 [(seconds 1, numbered "1"); (seconds 3, numbered "2")])
    by (vm_compute; repeat split; reflexivity).
  assert (Hl : Z.of_nat
                 (length [(seconds 1, numbered "1");
                          (seconds 3, numbered "2")])
               = BatchSize sample_config) by reflexivity.
  split; [exact Hn|]. split; [exact Ha|]. split; [exact Hl|].
  exact (full_batch_dispatched_on_last_arrival sample_config 0
           [(seconds 1, numbered "1"); (seconds 3, numbered "2")] Hn Ha Hl).
Defined.


(** ** The consumer loop *)

Lemma consumeForever_spawns_all pre : forall stats,
  Forall (fun r => ending_error r = None) pre ->
  forall tail,
  consumeForever (pre ++ tail) stats
  = ((consumeForever tail stats).1.1,
     map fst pre ++ (consumeForever tail stats).1.2,
     stats).
Proof.
  induction pre as [|[m e] pre IH]; intros stats Hpre tail; simpl.
  - pose proof (consumeForever_stats tail stats) as Hs.
    destruct (consumeForever tail stats) as [[st sp] stats']. simpl in *.
    now subst.
  - inversion Hpre as [|x l Hx Hl]; subst. unfold ending_error in Hx.
    simpl in Hx. rewrite (IH stats Hl tail).
    destruct e as [[]|]; try discriminate; reflexivity.
Qed.

(** Without an ending error the loop takes every result and goes on. *)
Lemma consumeForever_receiving pre stats :
  Forall (fun r => ending_error r = None) pre ->
  consumeForever pre stats = (Receiving, map fst pre, stats).
Proof.
  intros Hpre. rewrite <- (app_nil_r pre) at 1.
  rewrite (consumeForever_spawns_all pre stats Hpre []). simpl.
  now rewrite app_nil_r.
Qed.

Lemma delivered_no_ending_error (msgs : list Msg) :
  Forall (fun r => ending_error r = None) (map delivered msgs).
Proof.
  apply Forall_forall. intros r Hr. apply list_elem_of_In in Hr.
  apply in_map_iff in Hr. destruct Hr as (m & <- & _). reflexivity.
Qed.

Lemma delivered_messages (msgs : list Msg) :
  map fst (map delivered msgs) = map Some msgs.
Proof. rewrite map_map. reflexivity. Qed.

(** The loop on messages delivered one after the other. *)
Lemma consumeForever_delivered msgs stats :
  consumeForever (map delivered msgs) stats
  = (Receiving, map Some msgs, stats).
Proof.
  rewrite (consumeForever_receiving _ _ (delivered_no_ending_error msgs)).
  now rewrite delivered_messages.
Qed.

(** The loop on messages followed by an error other than a timeout. *)
Lemma consumeForever_closed msgs r err post stats :
  ending_error r = Some err ->
  consumeForever (map delivered msgs ++ r :: post) stats
  = (Returned err, map Some msgs, stats).
Proof.
  intros Herr. destruct r as [m e].
  rewrite (consumeForever_spawns_all _ stats
             (delivered_no_ending_error msgs)).
  rewrite delivered_messages. simpl.
  unfold ending_error in Herr. simpl in Herr.
  destruct e as [[]|]; try discriminate;
    inversion Herr; subst; simpl; now rewrite app_nil_r.
Qed.

(** X7.  [consumeForever] starts one goroutine for each message
    [sub.NextMsg] delivers, in the order of delivery, and each of them
    builds the document of its message and hands it on; the first error
    other than a timeout ends the loop, which returns that error, and
    whatever the subscription would have delivered after it is never
    received.  Without such an error the loop goes on receiving.  A
    timeout, after which the goroutine is started on a nil message, is left
    aside here. *)
Theorem consumeForever_runs_until_first_error :
  forall (msgs : list Msg) (stats : counters),
  consumeForever (map delivered msgs) stats
  = (Receiving, map Some msgs, stats) /\
  (forall now,
     map (consumeForever_task now) (map Some msgs)
     = map (fun m => Enqueued (buildDocument (Data m) (Subject m) now))
         msgs) /\
  (forall r err post,
     ending_error r = Some err ->
     consumeForever (map delivered msgs ++ r :: post) stats
     = (Returned err, map Some msgs, stats)).
Proof.
  intros msgs stats. split; [apply consumeForever_delivered|]. split.
  - intros now. rewrite map_map. reflexivity.
  - intros r err post Herr. now apply consumeForever_closed.
Qed.

Lemma consumeForever_runs_until_first_error_witness :
  ending_error (None, Some ErrConnectionClosed) = Some ErrConnectionClosed /\
  consumeForever
    (map delivered [ {| Subject := "events"; Data := "a" |};
                     {| Subject := "events"; Data := "b" |} ]
     ++ (None, Some ErrConnectionClosed)
        :: [delivered {| Subject := "events"; Data := "c" |}])
    {| natsConsumed := 0; esSent := 0 |}
  = (Returned ErrConnectionClosed,
     map Some [ {| Subject := "events"; Data := "a" |};
                {| Subject := "events"; Data := "b" |} ],
     {| natsConsumed := 0; esSent := 0 |}).
Proof.
  split; [reflexivity|].
  exact (proj2 (proj2 (consumeForever_runs_until_first_error
                         [ {| Subject := "events"; Data := "a" |};
                           {| Subject := "events"; Data := "b" |} ]
                         {| natsConsumed := 0; esSent := 0 |}))
           (None, Some ErrConnectionClosed) ErrConnectionClosed
           [delivered {| Subject := "events"; Data := "c" |}] eq_refl).
Defined.

(** ** The dispatcher *)

Lemma events_since_app w w' evs :
  trace w' = trace w ++ evs -> events_since w w' = evs.
Proof. intros H. unfold events_since. rewrite H. apply drop_app_length. Qed.

(** With a budget of at least one attempt, [send_doc] goes through all the
    rejections and returns. *)
Lemma send_doc_retries config ix doc answers :
  1 <= ReconnectAttempts config ->
  forall client w,
  exists client',
    send_doc config ix client doc answers w
    = (Ok (client', after_accept answers),
       {| stats := {| natsConsumed := natsConsumed (stats w);
                      esSent := incr64 (esSent (stats w)) |};
          next_conn := leading_rejections answers + next_conn w;
          trace := trace w ++ doc_events config ix doc (next_conn w)
                                (leading_rejections answers) |}).
Proof.
  intros Hb. unfold after_accept.
  induction answers as [|a rest IH]; intros client w.
  - exists client. now rewrite send_doc_accepted.
  - destruct a.
    + exists client. now rewrite send_doc_accepted.
    + rewrite send_doc_rejected.
      rewrite reconnect_first_attempt by exact Hb.
      match goal with
      | |- context [send_doc config ix ?c doc rest ?w1] =>
          destruct (IH c w1) as [client' Hrun]; rewrite Hrun
      end.
      exists client'. cbn. f_equal. f_equal.
      * lia.
      * unfold retry_events. rewrite <- !app_assoc. reflexivity.
Qed.

Lemma send_batch_cons config ix client doc rest answers w :
  send_batch config ix client (doc :: rest) answers w
  = match send_doc config ix client doc answers w with
    | (Ok r, w') => send_batch config ix r.1 rest r.2 w'
    | (Exited msg, w') => (Exited msg, w')
    end.
Proof. reflexivity. Qed.

(** The world a batch leaves behind once every document was accepted. *)
Lemma send_batch_retries config ix batch :
  1 <= ReconnectAttempts config ->
  forall answers client w,
  exists client',
    send_batch config ix client batch answers w
    = (Ok (client', answers_left batch answers),
       {| stats := {| natsConsumed := natsConsumed (stats w);
                      esSent := Nat.iter (length batch) incr64
                                  (esSent (stats w)) |};
          next_conn := sum_list (rejections_per_doc batch answers)
                       + next_conn w;
          trace := trace w ++ batch_events config ix (next_conn w) batch
                                (rejections_per_doc batch answers) |}).
Proof.
  intros Hb. induction batch as [|doc rest IH]; intros answers client w.
  - exists client. destruct w as [[c s] n t]. cbn.
    now rewrite app_nil_r.
  - rewrite send_batch_cons.
    destruct (send_doc_retries config ix doc answers Hb client w)
      as [client1 Hdoc].
    rewrite Hdoc. cbn [fst snd].
    match goal with
    | |- context [send_batch config ix client1 rest ?a ?w1] =>
        destruct (IH a client1 w1) as [client' Hrun]; rewrite Hrun
    end.
    exists client'. cbn [rejections_per_doc answers_left batch_events
                         sum_list fold_right length stats next_conn trace
                         natsConsumed esSent].
    f_equal. f_equal.
    + f_equal. rewrite <- Nat.iter_succ_r. reflexivity.
    + unfold sum_list. lia.
    + rewrite <- app_assoc. reflexivity.
Qed.

(** The world a dispatch of a batch that is not empty leaves behind, with a
    budget of at least one attempt. *)
Lemma sendToES_completes config doc rest answers w :
  1 <= ReconnectAttempts config ->
  sendToES config (doc :: rest) answers w
  = (Ok (answers_left (doc :: rest) answers),
     {| stats := {| natsConsumed := natsConsumed (stats w);
                    esSent := Nat.iter (length (doc :: rest)) incr64
                                (esSent (stats w)) |};
        next_conn :=
          S (sum_list (rejections_per_doc (doc :: rest) answers)
             + next_conn w);
        trace :=
          trace w ++ start_events config (next_conn w)
          ++ batch_events config (dispatch_indexer config (next_conn w))
               (S (next_conn w)) (doc :: rest)
               (rejections_per_doc (doc :: rest) answers)
          ++ stop_events (dispatch_indexer config (next_conn w)) |}).
Proof.
  intros Hb. unfold sendToES. cbn [length Nat.eqb].
  unfold bind at 1. rewrite connectToES_eq.
  unfold NewBulkIndexerErrors, bind, log, emit, ret.
  cbn -[send_batch rejections_per_doc answers_left batch_events].
  match goal with
  | |- context [send_batch config ?i ?c (doc :: rest) answers ?w1] =>
      destruct (send_batch_retries config i (doc :: rest) Hb answers c w1)
        as [client' Hrun]; rewrite Hrun
  end.
  cbn -[rejections_per_doc answers_left batch_events Nat.iter].
  f_equal. f_equal.
  - rewrite Nat.add_succ_r. reflexivity.
  - unfold start_events, stop_events, connect_events, dispatch_indexer.
    rewrite <- !app_assoc. reflexivity.
Qed.

Lemma call_results_app evs1 evs2 :
  call_results (evs1 ++ evs2) = call_results evs1 ++ call_results evs2.
Proof. unfold call_results. now rewrite index_calls_app, map_app. Qed.

Lemma new_conn_ids_app evs1 evs2 :
  new_conn_ids (evs1 ++ evs2) = new_conn_ids evs1 ++ new_conn_ids evs2.
Proof. unfold new_conn_ids. apply omap_app. Qed.

Lemma rejected_app evs1 evs2 :
  rejected (evs1 ++ evs2) = (rejected evs1 + rejected evs2)%nat.
Proof. unfold rejected. now rewrite List.filter_app, length_app. Qed.

Lemma doc_events_calls config ix doc k : forall id,
  call_results (doc_events config ix doc id k) = calls_for doc k.
Proof.
  induction k as [|k IH]; intros id; [reflexivity|].
  cbn [doc_events]. rewrite call_results_app, IH. reflexivity.
Qed.

Lemma doc_events_conns config ix doc k : forall id,
  new_conn_ids (doc_events config ix doc id k) = seq id k.
Proof.
  induction k as [|k IH]; intros id; [reflexivity|].
  cbn [doc_events]. rewrite new_conn_ids_app, IH. reflexivity.
Qed.

Lemma doc_events_rejected config ix doc k : forall id,
  rejected (doc_events config ix doc id k) = k.
Proof.
  induction k as [|k IH]; intros id; [reflexivity|].
  cbn [doc_events]. rewrite rejected_app, IH. reflexivity.
Qed.

Lemma batch_events_calls config ix batch : forall id ks,
  call_results (batch_events config ix id batch ks)
  = concat (zip_with calls_for batch ks).
Proof.
  induction batch as [|doc rest IH]; intros id ks; [reflexivity|].
  destruct ks as [|k ks]; [reflexivity|].
  cbn [batch_events zip_with concat].
  now rewrite call_results_app, doc_events_calls, IH.
Qed.

Lemma batch_events_conns config ix batch : forall answers id,
  new_conn_ids (batch_events config ix id batch
                  (rejections_per_doc batch answers))
  = seq id (sum_list (rejections_per_doc batch answers)).
Proof.
  induction batch as [|doc rest IH]; intros answers id; [reflexivity|].
  cbn [rejections_per_doc batch_events sum_list fold_right].
  rewrite new_conn_ids_app, doc_events_conns, IH.
  fold (sum_list (rejections_per_doc rest (after_accept answers))).
  rewrite seq_app. f_equal. f_equal. lia.
Qed.

Lemma batch_events_rejected config ix batch : forall answers id,
  rejected (batch_events config ix id batch
              (rejections_per_doc batch answers))
  = sum_list (rejections_per_doc batch answers).
Proof.
  induction batch as [|doc rest IH]; intros answers id; [reflexivity|].
  cbn [rejections_per_doc batch_events sum_list fold_right].
  now rewrite rejected_app, doc_events_rejected, IH.
Qed.

(** The events a dispatch with a budget of at least one attempt adds. *)
Lemma sendToES_events config batch answers w :
  1 <= ReconnectAttempts config ->
  events_since w (sendToES config batch answers w).2
  = match batch with
    | [] => []
    | _ :: _ =>
        start_events config (next_conn w)
        ++ batch_events config (dispatch_indexer config (next_conn w))
             (S (next_conn w)) batch (rejections_per_doc batch answers)
        ++ stop_events (dispatch_indexer config (next_conn w))
    end.
Proof.
  intros Hb. destruct batch as [|doc rest].
  - apply events_since_app. cbn. now rewrite app_nil_r.
  - rewrite sendToES_completes by exact Hb.
    apply events_since_app. reflexivity.
Qed.

(** X8.  With a reconnect budget of at least one attempt a dispatch never
    ends the process: whatever calls the backend rejects, the dispatch
    returns, having used the answers of the backend up to the acceptance of
    its last document, and, as long as the counter stays below 2^63, the
    sent counter has grown by exactly the number of documents of the batch
    while the consumed counter is unchanged. *)
Theorem sendToES_completes_with_budget :
  forall (config : elasticConfig) (batch : list payload)
         (answers : list bool) (w : World),
  1 <= ReconnectAttempts config ->
  - 2 ^ 63 <= esSent (stats w) ->
  esSent (stats w) + Z.of_nat (length batch) < 2 ^ 63 ->
  (sendToES config batch answers w).1 = Ok (answers_left batch answers) /\
  esSent (stats (sendToES config batch answers w).2)
  = esSent (stats w) + Z.of_nat (length batch) /\
  natsConsumed (stats (sendToES config batch answers w).2)
  = natsConsumed (stats w).
Proof.
  intros config batch answers w Hb Hlo Hhi. destruct batch as [|doc rest].
  - cbn. repeat split; lia.
  - rewrite sendToES_completes by exact Hb.
    cbn [fst snd stats esSent natsConsumed].
    split; [reflexivity|]. split; [|reflexivity].
    apply iter_incr64_in_range; assumption.
Qed.

Lemma sendToES_completes_with_budget_witness :
  1 <= ReconnectAttempts sample_config /\
  - 2 ^ 63 <= esSent (stats initial_world) /\
  esSent (stats initial_world)
    + Z.of_nat (length [numbered "1"; numbered "2"]) < 2 ^ 63 /\
  (sendToES sample_config [numbered "1"; numbered "2"]
     [false; false; true; false; true; true] initial_world).1
  = Ok [true] /\
  esSent (stats (sendToES sample_config [numbered "1"; numbered "2"]
                   [false; false; true; false; true; true]
                   initial_world).2) = 2.
Proof.
  assert (Hb : 1 <= ReconnectAttempts sample_config) by (simpl; lia).
  assert (Hlo : - 2 ^ 63 <= esSent (stats initial_world)) by (simpl; lia).
  assert (Hhi : esSent (stats initial_world)
                + Z.of_nat (length [numbered "1"; numbered "2"]) < 2 ^ 63)
    by (simpl; lia).
  split; [exact Hb|]. split; [exact Hlo|]. split; [exact Hhi|].
  destruct (sendToES_completes_with_budget sample_config
              [numbered "1"; numbered "2"]
              [false; false; true; false; true; true] initial_world
              Hb Hlo Hhi) as (Hr & Hs & _).
  split; [exact Hr | exact Hs].
Defined.

(** X9.  Within a dispatch that has a budget to reconnect, the documents
    are submitted in the order of the batch, and each one is submitted
    again and again until it is accepted before the next is touched: the
    calls of [indexer.Index] are, for each document in turn, one rejected
    call per rejection of the backend and then the accepted call. *)
Theorem sendToES_submits_in_batch_order :
  forall (config : elasticConfig) (batch : list payload)
         (answers : list bool) (w : World),
  1 <= ReconnectAttempts config ->
  call_results (events_since w (sendToES config batch answers w).2)
  = concat (zip_with calls_for batch (rejections_per_doc batch answers)).
Proof.
  intros config batch answers w Hb.
  rewrite sendToES_events by exact Hb.
  destruct batch as [|doc rest]; [reflexivity|].
  rewrite !call_results_app, batch_events_calls.
  change (call_results (start_events config (next_conn w))) with
    (@nil (payload * bool)).
  change (call_results (stop_events (dispatch_indexer config (next_conn w))))
    with (@nil (payload * bool)).
  now rewrite app_nil_r.
Qed.

Lemma sendToES_submits_in_batch_order_witness :
  1 <= ReconnectAttempts sample_config /\
  call_results
    (events_since initial_world
       (sendToES sample_config [numbered "1"; numbered "2"]
          [false; false; true; false] initial_world).2)
  = [(numbered "1", false); (numbered "1", false); (numbered "1", true);
     (numbered "2", false); (numbered "2", true)].
Proof.
  assert (Hb : 1 <= ReconnectAttempts sample_config) by (simpl; lia).
  split; [exact Hb|].
  exact (sendToES_submits_in_batch_order sample_config
           [numbered "1"; numbered "2"] [false; false; true; false]
           initial_world Hb).
Defined.

(** X10.  A dispatch of a batch that is not empty makes one connection
    object when it starts and one more for every rejected call, and no
    other: with a budget of at least one attempt, the connection objects it
    makes are numbered consecutively and there is one more of them than
    there are rejected calls. *)
Theorem sendToES_one_connection_per_rejection :
  forall (config : elasticConfig) (batch : list payload)
         (answers : list bool) (w : World),
  1 <= ReconnectAttempts config ->
  batch <> [] ->
  new_conn_ids (events_since w (sendToES config batch answers w).2)
  = seq (next_conn w)
      (S (rejected (events_since w (sendToES config batch answers w).2))) /\
  next_conn (sendToES config batch answers w).2
  = (S (rejected (events_since w (sendToES config batch answers w).2))
     + next_conn w)%nat.
Proof.
  intros config batch answers w Hb Hne.
  rewrite sendToES_events by exact Hb.
  destruct batch as [|doc rest]; [congruence|].
  rewrite sendToES_completes by exact Hb.
  rewrite !new_conn_ids_app, !rejected_app.
  rewrite batch_events_conns, batch_events_rejected.
  change (rejected (start_events config (next_conn w))) with 0%nat.
  change (rejected (stop_events (dispatch_indexer config (next_conn w))))
    with 0%nat.
  change (new_conn_ids (start_events config (next_conn w)))
    with [next_conn w].
  change (new_conn_ids
            (stop_events (dispatch_indexer config (next_conn w))))
    with (@nil nat).
  rewrite app_nil_r, Nat.add_0_r. cbn [Nat.add next_conn].
  split; reflexivity.
Qed.

Lemma sendToES_one_connection_per_rejection_witness :
  1 <= ReconnectAttempts sample_config /\
  [numbered "1"; numbered "2"] <> [] /\
  new_conn_ids
    (events_since initial_world
       (sendToES sample_config [numbered "1"; numbered "2"]
          [false; false; true; false] initial_world).2)
  = [0; 1; 2; 3]%nat.
Proof.
  assert (Hb : 1 <= ReconnectAttempts sample_config) by (simpl; lia).
  assert (Hn : [numbered "1"; numbered "2"] <> []) by discriminate.
  split; [exact Hb|]. split; [exact Hn|].
  exact (proj1 (sendToES_one_connection_per_rejection sample_config
                  [numbered "1"; numbered "2"] [false; false; true; false]
                  initial_world Hb Hn)).
Defined.

Lemma shutdown_app evs1 evs2 :
  List.filter is_shutdown (evs1 ++ evs2)
  = List.filter is_shutdown evs1 ++ List.filter is_shutdown evs2.
Proof. apply List.filter_app. Qed.

Lemma doc_events_quiet config ix doc k : forall id,
  List.filter is_shutdown (doc_events config ix doc id k) = [].
Proof.
  induction k as [|k IH]; intros id; [reflexivity|].
  cbn [doc_events]. rewrite shutdown_app, IH. reflexivity.
Qed.

(** The loop of a dispatch neither flushes nor stops the indexer. *)
Lemma send_doc_quiet config ix client doc answers w :
  exists evs,
    trace (send_doc config ix client doc answers w).2 = trace w ++ evs /\
    List.filter is_shutdown evs = [].
Proof.
  destruct (Z_le_gt_dec 1 (ReconnectAttempts config)) as [Hb|Hb].
  - destruct (send_doc_retries config ix doc answers Hb client w)
      as [client' Hrun].
    rewrite Hrun. eexists. split; [reflexivity|]. apply doc_events_quiet.
  - destruct answers as [|[] rest].
    + rewrite send_doc_accepted by exact I. eexists.
      split; reflexivity.
    + rewrite send_doc_accepted by exact I. eexists.
      split; reflexivity.
    + rewrite send_doc_rejected, reconnect_no_budget by lia.
      exists (give_up_events config ix doc). split; [|reflexivity].
      cbn. rewrite <- !app_assoc. reflexivity.
Qed.

Lemma send_batch_quiet config ix batch : forall client answers w,
  exists evs,
    trace (send_batch config ix client batch answers w).2 = trace w ++ evs /\
    List.filter is_shutdown evs = [].
Proof.
  induction batch as [|doc rest IH]; intros client answers w.
  - exists []. split; [cbn; now rewrite app_nil_r | reflexivity].
  - rewrite send_batch_cons.
    destruct (send_doc_quiet config ix client doc answers w)
      as (evs1 & Ht1 & Hq1).
    destruct (send_doc config ix client doc answers w) as [[r|msg] w1].
    + destruct (IH r.1 r.2 w1) as (evs2 & Ht2 & Hq2).
      exists (evs1 ++ evs2). split.
      * rewrite Ht2. cbn [snd] in Ht1. rewrite Ht1.
        now rewrite app_assoc.
      * now rewrite shutdown_app, Hq1, Hq2.
    + exists evs1. split; assumption.
Qed.

(** The events of a dispatch of a batch that is not empty: the start, the
    loop, and the deferred calls if the dispatch returns. *)
Lemma sendToES_shape config doc rest answers w :
  exists evs,
    List.filter is_shutdown evs = [] /\
    events_since w (sendToES config (doc :: rest) answers w).2
    = start_events config (next_conn w) ++ evs
      ++ match (sendToES config (doc :: rest) answers w).1 with
         | Ok _ => stop_events (dispatch_indexer config (next_conn w))
         | Exited _ => []
         end.
Proof.
  destruct (sendToES config (doc :: rest) answers w) as [r w'] eqn:H.
  unfold sendToES in H. cbn [length Nat.eqb] in H.
  unfold bind at 1 in H. rewrite connectToES_eq in H.
  unfold NewBulkIndexerErrors, bind, log, emit, ret in H.
  cbn -[send_batch] in H.
  match type of H with
  | context [send_batch ?c ?i ?cl ?b ?a ?w0] =>
      destruct (send_batch_quiet c i b cl a w0) as (evs & Ht & Hq);
      destruct (send_batch c i cl b a w0) as [[r1|msg] w1]
  end; inversion H; subst; clear H; exists evs; (split; [exact Hq|]);
    apply events_since_app; cbn [fst snd trace] in *; rewrite Ht;
    unfold start_events, stop_events, connect_events, dispatch_indexer;
    rewrite <- !app_assoc, ?app_nil_r; reflexivity.
Qed.

(** X11.  The deferred flush and stop of the indexer run once, in that
    order and as the last thing a dispatch does, when the dispatch returns;
    when the process exits in the middle of a dispatch, because a call was
    rejected and no reconnect attempt is allowed, they never run: the exit
    does not go through the deferred function. *)
Theorem sendToES_shutdown_only_on_return :
  forall (config : elasticConfig) (doc : payload) (rest : list payload)
         (answers : list bool) (w : World),
  match (sendToES config (doc :: rest) answers w).1 with
  | Ok _ =>
      List.filter is_shutdown
        (events_since w (sendToES config (doc :: rest) answers w).2)
      = [EvFlush (dispatch_indexer config (next_conn w));
         EvStop (dispatch_indexer config (next_conn w))] /\
      exists before,
        events_since w (sendToES config (doc :: rest) answers w).2
        = before ++ stop_events (dispatch_indexer config (next_conn w))
  | Exited _ =>
      List.filter is_shutdown
        (events_since w (sendToES config (doc :: rest) answers w).2) = []
  end.
Proof.
  intros config doc rest answers w.
  destruct (sendToES_shape config doc rest answers w) as (evs & Hq & He).
  rewrite He.
  destruct (sendToES config (doc :: rest) answers w).1 as [r|msg].
  - split.
    + rewrite !shutdown_app, Hq. reflexivity.
    + exists (start_events config (next_conn w) ++ evs).
      now rewrite <- app_assoc.
  - rewrite !shutdown_app, Hq. reflexivity.
Qed.

(** Without a budget, the loop stops at the first rejected call. *)
Lemma send_batch_no_budget config ix pre : forall d post rest client w,
  ReconnectAttempts config <= 0 ->
  send_batch config ix client (pre ++ d :: post)
    (replicate (length pre) true ++ false :: rest) w
  = (Exited reconnect_failure,
     {| stats := {| natsConsumed := natsConsumed (stats w);
                    esSent := Nat.iter (length pre) incr64
                                (esSent (stats w)) |};
        next_conn := next_conn w;
        trace := trace w ++ flat_map (accept_events config ix) pre
                 ++ give_up_events config ix d |}).
Proof.
  induction pre as [|p pre IH]; intros d post rest client w Hb.
  - cbn [app length replicate flat_map Nat.iter nat_rect].
    rewrite send_batch_cons, send_doc_rejected, reconnect_no_budget by lia.
    destruct w as [[c s] n t]. unfold advanced, give_up_events. cbn.
    rewrite <- !app_assoc. reflexivity.
  - cbn [app length replicate flat_map].
    rewrite send_batch_cons, send_doc_accepted by exact I.
    cbn [fst snd tl]. rewrite IH by exact Hb.
    cbn [stats natsConsumed esSent next_conn trace].
    f_equal. f_equal.
    + f_equal. rewrite <- Nat.iter_succ_r. reflexivity.
    + unfold accept_events. rewrite <- !app_assoc. reflexivity.
Qed.

Lemma accept_events_calls config ix pre :
  call_results (flat_map (accept_events config ix) pre)
  = map (fun x => (x, true)) pre.
Proof.
  induction pre as [|p pre IH]; [reflexivity|].
  cbn [flat_map map]. rewrite call_results_app, IH. reflexivity.
Qed.

Lemma accept_events_conns config ix pre :
  new_conn_ids (flat_map (accept_events config ix) pre) = [].
Proof.
  induction pre as [|p pre IH]; [reflexivity|].
  cbn [flat_map]. rewrite new_conn_ids_app, IH. reflexivity.
Qed.

Lemma accept_events_attempts config ix pre :
  attempts (flat_map (accept_events config ix) pre) = 0%nat.
Proof.
  induction pre as [|p pre IH]; [reflexivity|].
  cbn [flat_map]. rewrite attempts_app, IH. reflexivity.
Qed.

(** X12.  With no reconnect budget (a [reconnect_attempts] setting that is
    absent, zero or negative) the first rejected submission ends the
    process at once, without a single attempt to reconnect: the documents
    before it were submitted, accepted and counted, the rejected document
    and those after it are dropped, and only the connection object made
    when the dispatch started exists. *)
Theorem sendToES_without_budget_exits_on_first_rejection :
  forall (config : elasticConfig) (pre : list payload) (d : payload)
         (post : list payload) (rest : list bool) (w : World),
  ReconnectAttempts config <= 0 ->
  (sendToES config (pre ++ d :: post)
     (replicate (length pre) true ++ false :: rest) w).1
  = Exited reconnect_failure /\
  call_results
    (events_since w
       (sendToES config (pre ++ d :: post)
          (replicate (length pre) true ++ false :: rest) w).2)
  = map (fun x => (x, true)) pre ++ [(d, false)] /\
  attempts
    (events_since w
       (sendToES config (pre ++ d :: post)
          (replicate (length pre) true ++ false :: rest) w).2) = 0%nat /\
  new_conn_ids
    (events_since w
       (sendToES config (pre ++ d :: post)
          (replicate (length pre) true ++ false :: rest) w).2)
  = [next_conn w] /\
  esSent (stats (sendToES config (pre ++ d :: post)
                   (replicate (length pre) true ++ false :: rest) w).2)
  = Nat.iter (length pre) incr64 (esSent (stats w)).
Proof.
  intros config pre d post rest w Hb.
  assert (E : sendToES config (pre ++ d :: post)
                (replicate (length pre) true ++ false :: rest) w
              = (Exited reconnect_failure,
                 {| stats := {| natsConsumed := natsConsumed (stats w);
                                esSent := Nat.iter (length pre) incr64
                                            (esSent (stats w)) |};
                    next_conn := S (next_conn w);
                    trace :=
                      trace w ++ start_events config (next_conn w)
                      ++ flat_map
                           (accept_events config
                              (dispatch_indexer config (next_conn w))) pre
                      ++ give_up_events config
                           (dispatch_indexer config (next_conn w)) d |})).
  { unfold sendToES.
    replace (length (pre ++ d :: post) =? 0)%nat with false
      by (symmetry; apply Nat.eqb_neq; rewrite length_app; simpl; lia).
    unfold bind at 1. rewrite connectToES_eq.
    unfold NewBulkIndexerErrors, bind, log, emit, ret.
    cbn -[send_batch replicate].
    rewrite send_batch_no_budget by exact Hb.
    cbn [stats natsConsumed esSent next_conn trace].
    f_equal. f_equal.
    unfold start_events, connect_events, dispatch_indexer.
    rewrite <- !app_assoc. reflexivity. }
  rewrite E. cbn [fst snd stats esSent].
  erewrite events_since_app by (cbn [trace]; reflexivity).
  split; [reflexivity|]. split; [|split; [|split; [|reflexivity]]].
  - rewrite !call_results_app, accept_events_calls. reflexivity.
  - rewrite !attempts_app, accept_events_attempts. reflexivity.
  - rewrite !new_conn_ids_app, accept_events_conns. reflexivity.
Qed.

Lemma sendToES_without_budget_exits_on_first_rejection_witness :
  ReconnectAttempts
    {| Index := "logs"; Hosts := ["localhost"]; Port := 9200; Trace := false;
       ReconnectAttempts := 0; RetrySeconds := 2; BatchSize := 2;
       BatchTimeoutSec := 10 |} <= 0 /\
  (sendToES
     {| Index := "logs"; Hosts := ["localhost"]; Port := 9200; Trace := false;
        ReconnectAttempts := 0; RetrySeconds := 2; BatchSize := 2;
        BatchTimeoutSec := 10 |}
     ([numbered "1"] ++ numbered "2" :: [numbered "3"])
     (replicate (length [numbered "1"]) true ++ false :: [true])
     initial_world).1
  = Exited reconnect_failure.
Proof.
  split; [simpl; lia|].
  exact (proj1 (sendToES_without_budget_exits_on_first_rejection
                  {| Index := "logs"; Hosts := ["localhost"]; Port := 9200;
                     Trace := false; ReconnectAttempts := 0;
                     RetrySeconds := 2; BatchSize := 2;
                     BatchTimeoutSec := 10 |}
                  [numbered "1"] (numbered "2") [numbered "3"] [true]
                  initial_world ltac:(simpl; lia))).
Defined.

(** ** The stats reporter *)

Lemma wrap64_in_range z : - 2 ^ 63 <= z < 2 ^ 63 -> wrap64 z = z.
Proof. intros H. unfold wrap64. rewrite Z.mod_small by lia. lia. Qed.

(** X13.  [reportStats] by its interval.  With an interval of zero it logs
    once that reporting is disabled and returns.  With a negative interval
    it neither reports nor returns, and logs nothing at all: the ticker
    channel is nil.  With a positive interval of [reportSec] seconds it
    logs one line every [reportSec] seconds, which shows the two counters
    as they are at that instant.  (Intervals within 9223372036 seconds, so
    that the duration in nanoseconds fits an [int64].) *)
Theorem reportStats_by_interval :
  forall (reportSec start : Z) (stats_at : Z -> counters) (ticks : nat),
  (reportSec = 0 ->
   reportStats reportSec start stats_at ticks
   = (ReporterReturned,
      [(start, EvLog Debug "Stats reporting disabled" [])])) /\
  (- 9223372036 <= reportSec < 0 ->
   reportStats reportSec start stats_at ticks = (ReporterBlocked, [])) /\
  (0 < reportSec <= 9223372036 ->
   reportStats reportSec start stats_at ticks
   = (ReporterTicking,
      map (fun k =>
             (start + (Z.of_nat k + 1) * seconds reportSec,
              report_line
                (stats_at (start + (Z.of_nat k + 1) * seconds reportSec))))
          (seq 0 ticks))).
Proof.
  intros reportSec start stats_at ticks. unfold reportStats.
  split; [intros ->; reflexivity|]. split.
  - intros Hneg.
    replace (reportSec =? 0) with false by (symmetry; apply Z.eqb_neq; lia).
    unfold report_period. rewrite wrap64_in_range by lia.
    replace (1000000000 * reportSec <=? 0) with true
      by (symmetry; apply Z.leb_le; lia).
    reflexivity.
  - intros Hpos.
    replace (reportSec =? 0) with false by (symmetry; apply Z.eqb_neq; lia).
    unfold report_period. rewrite wrap64_in_range by lia.
    replace (1000000000 * reportSec <=? 0) with false
      by (symmetry; apply Z.leb_gt; lia).
    f_equal. apply map_ext. intros k. unfold seconds.
    replace (1000000000 * reportSec) with (reportSec * 1000000000) by lia.
    reflexivity.
Qed.

Lemma reportStats_by_interval_witness :
  (0 = 0 /\
   reportStats 0 0 (fun _ => {| natsConsumed := 0; esSent := 7 |}) 3
   = (ReporterReturned, [(0, EvLog Debug "Stats reporting disabled" [])])) /\
  (- 9223372036 <= -5 < 0 /\
   reportStats (-5) 0 (fun _ => {| natsConsumed := 0; esSent := 7 |}) 3
   = (ReporterBlocked, [])) /\
  (0 < 30 <= 9223372036 /\
   reportStats 30 0 (fun _ => {| natsConsumed := 0; esSent := 7 |}) 2
   = (ReporterTicking,
      [(seconds 30, report_line {| natsConsumed := 0; esSent := 7 |});
       (seconds 60, report_line {| natsConsumed := 0; esSent := 7 |})])).
Proof.
  assert (Hn : - 9223372036 <= -5 < 0) by lia.
  assert (Hp : 0 < 30 <= 9223372036) by lia.
  split; [|split].
  - split; [reflexivity|].
    exact (proj1 (reportStats_by_interval 0 0
                    (fun _ => {| natsConsumed := 0; esSent := 7 |}) 3)
             eq_refl).
  - split; [exact Hn|].
    exact (proj1 (proj2 (reportStats_by_interval (-5) 0
                           (fun _ => {| natsConsumed := 0; esSent := 7 |}) 3))
             Hn).
  - split; [exact Hp|].
    exact (proj2 (proj2 (reportStats_by_interval 30 0
                           (fun _ => {| natsConsumed := 0; esSent := 7 |}) 2))
             Hp).
Defined.

(** ** Start-up *)

Lemma subscribe_calls_call pr steps :
  Run.subscribe_calls (Run.subscribe_call pr :: steps)
  = Run.subscribe_call pr :: Run.subscribe_calls steps.
Proof.
  unfold Run.subscribe_calls, Run.subscribe_call.
  destruct (String.eqb (Run.Group pr) ""); reflexivity.
Qed.

Lemma consumers_started_call pr steps :
  Run.consumers_started (Run.subscribe_call pr :: steps)
  = Run.consumers_started steps.
Proof.
  unfold Run.consumers_started, Run.subscribe_call.
  destruct (String.eqb (Run.Group pr) ""); reflexivity.
Qed.

Lemma background_started_call pr steps :
  Run.background_started (Run.subscribe_call pr :: steps)
  = Run.background_started steps.
Proof.
  unfold Run.background_started, Run.subscribe_call.
  destruct (String.eqb (Run.Group pr) ""); reflexivity.
Qed.

(** When every subscribe call succeeds, a closure is built for every
    subject, in order, and no consumer is started by the loop itself. *)
Lemma build_tailers_all can pairs :
  forallb can pairs = true ->
  exists steps,
    Run.build_tailers can pairs = (steps, Some pairs) /\
    Run.subscribe_calls steps = map Run.subscribe_call pairs /\
    Run.consumers_started steps = [] /\
    Run.background_started steps = [].
Proof.
  induction pairs as [|pr rest IH]; intros Hall.
  - exists []. repeat split.
  - cbn [forallb] in Hall. apply andb_prop in Hall. destruct Hall as [Hp Hr].
    destruct (IH Hr) as (steps & Hb & Hs & Hc & Hg).
    cbn [Run.build_tailers]. rewrite Hp, Hb. eexists. split; [reflexivity|].
    split; [|split].
    + change (Run.subscribe_calls
                (Run.Log Debug "Connecting channel"
                 :: Run.subscribe_call pr :: steps))
        with (Run.subscribe_calls (Run.subscribe_call pr :: steps)).
      rewrite subscribe_calls_call, Hs. reflexivity.
    + change (Run.consumers_started
                (Run.Log Debug "Connecting channel"
                 :: Run.subscribe_call pr :: steps))
        with (Run.consumers_started (Run.subscribe_call pr :: steps)).
      rewrite consumers_started_call. exact Hc.
    + change (Run.background_started
                (Run.Log Debug "Connecting channel"
                 :: Run.subscribe_call pr :: steps))
        with (Run.background_started (Run.subscribe_call pr :: steps)).
      rewrite background_started_call. exact Hg.
Qed.

(** When a subscribe call fails, the loop stops there. *)
Lemma build_tailers_fails can pre : forall pr post,
  forallb can pre = true -> can pr = false ->
  exists steps,
    Run.build_tailers can (pre ++ pr :: post) = (steps, None) /\
    Run.subscribe_calls steps = map Run.subscribe_call (pre ++ [pr]) /\
    Run.consumers_started steps = [] /\
    Run.background_started steps = [].
Proof.
  induction pre as [|x pre IH]; intros pr post Hall Hfail.
  - cbn [app Run.build_tailers]. rewrite Hfail. eexists.
    split; [reflexivity|]. split; [|split].
    + change (Run.subscribe_calls
                [Run.Log Debug "Connecting channel"; Run.subscribe_call pr;
                 Run.Log Fatal "Failed to subscribe"])
        with (Run.subscribe_calls
                (Run.subscribe_call pr
                 :: [Run.Log Fatal "Failed to subscribe"])).
      rewrite subscribe_calls_call. reflexivity.
    + change (Run.consumers_started
                [Run.Log Debug "Connecting channel"; Run.subscribe_call pr;
                 Run.Log Fatal "Failed to subscribe"])
        with (Run.consumers_started
                (Run.subscribe_call pr
                 :: [Run.Log Fatal "Failed to subscribe"])).
      rewrite consumers_started_call. reflexivity.
    + change (Run.background_started
                [Run.Log Debug "Connecting channel"; Run.subscribe_call pr;
                 Run.Log Fatal "Failed to subscribe"])
        with (Run.background_started
                (Run.subscribe_call pr
                 :: [Run.Log Fatal "Failed to subscribe"])).
      rewrite background_started_call. reflexivity.
  - cbn [forallb] in Hall. apply andb_prop in Hall. destruct Hall as [Hx Hr].
    destruct (IH pr post Hr Hfail) as (steps & Hb & Hs & Hc & Hg).
    cbn [app Run.build_tailers]. rewrite Hx, Hb. eexists.
    split; [reflexivity|]. split; [|split].
    + change (Run.subscribe_calls
                (Run.Log Debug "Connecting channel"
                 :: Run.subscribe_call x :: steps))
        with (Run.subscribe_calls (Run.subscribe_call x :: steps)).
      rewrite subscribe_calls_call, Hs. reflexivity.
    + change (Run.consumers_started
                (Run.Log Debug "Connecting channel"
                 :: Run.subscribe_call x :: steps))
        with (Run.consumers_started (Run.subscribe_call x :: steps)).
      rewrite consumers_started_call. exact Hc.
    + change (Run.background_started
                (Run.Log Debug "Connecting channel"
                 :: Run.subscribe_call x :: steps))
        with (Run.background_started (Run.subscribe_call x :: steps)).
      rewrite background_started_call. exact Hg.
Qed.

Lemma consumers_started_app s1 s2 :
  Run.consumers_started (s1 ++ s2)
  = Run.consumers_started s1 ++ Run.consumers_started s2.
Proof. unfold Run.consumers_started. apply omap_app. Qed.

Lemma subscribe_calls_app s1 s2 :
  Run.subscribe_calls (s1 ++ s2)
  = Run.subscribe_calls s1 ++ Run.subscribe_calls s2.
Proof. unfold Run.subscribe_calls. apply List.filter_app. Qed.

Lemma background_started_app s1 s2 :
  Run.background_started (s1 ++ s2)
  = Run.background_started s1 ++ Run.background_started s2.
Proof. unfold Run.background_started. apply List.filter_app. Qed.

Lemma consumers_started_launch funcs :
  Run.consumers_started (map Run.GoConsumer funcs) = funcs /\
  Run.subscribe_calls (map Run.GoConsumer funcs) = [] /\
  Run.background_started (map Run.GoConsumer funcs) = [].
Proof.
  induction funcs as [|f funcs (IH1 & IH2 & IH3)]; [repeat split|].
  cbn. split; [|split].
  - f_equal. exact IH1.
  - exact IH2.
  - exact IH3.
Qed.

(** The steps of [run] once the configuration is loaded, logging is set
    up and NATS is reached. *)
Lemma run_connected env config :
  Run.loaded env = Some config ->
  Run.logging_ok env = true ->
  Run.nats_ok env = true ->
  Run.run env
  = match Run.build_tailers (Run.can_subscribe env) (Run.Subjects config) with
    | (steps, None) =>
        (Run.RunExited "Failed to subscribe",
         [Run.Log Info "Configured - starting to connect and consume";
          Run.GoReportStats (Run.ReportSec config);
          Run.GoBatchAndSend (Run.ElasticConf config);
          Run.Log Info "Connecting to Nats";
          Run.ConnectToNats] ++ steps)
    | (steps, Some funcs) =>
        if existsb (Run.consumer_panics env) funcs
        then (Run.RunPanics,
              ([Run.Log Info "Configured - starting to connect and consume";
                Run.GoReportStats (Run.ReportSec config);
                Run.GoBatchAndSend (Run.ElasticConf config);
                Run.Log Info "Connecting to Nats";
                Run.ConnectToNats] ++ steps ++ map Run.GoConsumer funcs)
              ++ [Run.Wait])
        else if forallb (Run.consumer_done env) funcs
        then (Run.RunReturned,
              ([Run.Log Info "Configured - starting to connect and consume";
                Run.GoReportStats (Run.ReportSec config);
                Run.GoBatchAndSend (Run.ElasticConf config);
                Run.Log Info "Connecting to Nats";
                Run.ConnectToNats] ++ steps ++ map Run.GoConsumer funcs)
              ++ [Run.Wait; Run.Log Info "Shutting down"])
        else (Run.RunWaiting,
              ([Run.Log Info "Configured - starting to connect and consume";
                Run.GoReportStats (Run.ReportSec config);
                Run.GoBatchAndSend (Run.ElasticConf config);
                Run.Log Info "Connecting to Nats";
                Run.ConnectToNats] ++ steps ++ map Run.GoConsumer funcs)
              ++ [Run.Wait])
    end.
Proof.
  intros Hl Hg Hn. unfold Run.run. rewrite Hl, Hg, Hn. reflexivity.
Qed.

(** X14.  Start-up is all or nothing for the consumers.  Once the
    configuration is loaded, logging is set up and NATS is reached: if the
    subscribe call for some subject fails, the process exits after the
    subscribe calls up to and including that one, and no consumer was
    started, although the stats reporter and the aggregator were; if every
    subscribe call succeeds, one consumer is started for every configured
    subject, in the order of the configuration, after one subscribe call
    for each. *)
Theorem run_starts_consumers_only_when_all_subscribed :
  forall (env : Run.environment) (config : Run.configuration),
  Run.loaded env = Some config ->
  Run.logging_ok env = true ->
  Run.nats_ok env = true ->
  (forall pre pr post,
     Run.Subjects config = pre ++ pr :: post ->
     forallb (Run.can_subscribe env) pre = true ->
     Run.can_subscribe env pr = false ->
     (Run.run env).1 = Run.RunExited "Failed to subscribe" /\
     Run.consumers_started (Run.run env).2 = [] /\
     Run.subscribe_calls (Run.run env).2
     = map Run.subscribe_call (pre ++ [pr]) /\
     Run.background_started (Run.run env).2
     = [Run.GoReportStats (Run.ReportSec config);
        Run.GoBatchAndSend (Run.ElasticConf config)]) /\
  (forallb (Run.can_subscribe env) (Run.Subjects config) = true ->
   Run.consumers_started (Run.run env).2 = Run.Subjects config /\
   Run.subscribe_calls (Run.run env).2
   = map Run.subscribe_call (Run.Subjects config) /\
   Run.background_started (Run.run env).2
   = [Run.GoReportStats (Run.ReportSec config);
      Run.GoBatchAndSend (Run.ElasticConf config)]).
Proof.
  intros env config Hl Hg Hn.
  rewrite (run_connected env config Hl Hg Hn). split.
  - intros pre pr post Hsub Hpre Hfail. rewrite Hsub.
    destruct (build_tailers_fails (Run.can_subscribe env) pre pr post
                Hpre Hfail) as (steps & Hb & Hs & Hc & Hbg).
    rewrite Hb. cbn [fst snd].
    rewrite consumers_started_app, subscribe_calls_app,
      background_started_app, Hc, Hs, Hbg.
    repeat split.
  - intros Hall.
    destruct (build_tailers_all (Run.can_subscribe env) (Run.Subjects config)
                Hall) as (steps & Hb & Hs & Hc & Hbg).
    rewrite Hb.
    destruct (consumers_started_launch (Run.Subjects config))
      as (L1 & L2 & L3).
    destruct (existsb (Run.consumer_panics env) (Run.Subjects config)),
      (forallb (Run.consumer_done env) (Run.Subjects config));
      cbn [fst snd];
      rewrite !consumers_started_app, !subscribe_calls_app,
        !background_started_app, Hc, Hs, Hbg, L1, L2, L3;
      cbn; rewrite ?app_nil_r; repeat split.
Qed.

Lemma run_starts_consumers_only_when_all_subscribed_witness :
  (Run.loaded refusing_environment = Some sample_run_config /\
   Run.logging_ok refusing_environment = true /\
   Run.nats_ok refusing_environment = true /\
   Run.Subjects sample_run_config
   = [ {| Run.Subject := "events"; Run.Group := "" |} ]
     ++ {| Run.Subject := "logs"; Run.Group := "workers" |} :: [] /\
   forallb (Run.can_subscribe refusing_environment)
     [ {| Run.Subject := "events"; Run.Group := "" |} ] = true /\
   Run.can_subscribe refusing_environment
     {| Run.Subject := "logs"; Run.Group := "workers" |} = false /\
   (Run.run refusing_environment).1 = Run.RunExited "Failed to subscribe" /\
   Run.consumers_started (Run.run refusing_environment).2 = []) /\
  (Run.loaded sample_environment = Some sample_run_config /\
   Run.logging_ok sample_environment = true /\
   Run.nats_ok sample_environment = true /\
   forallb (Run.can_subscribe sample_environment)
     (Run.Subjects sample_run_config) = true /\
   Run.consumers_started (Run.run sample_environment).2
   = Run.Subjects sample_run_config).
Proof.
  split.
  - destruct (proj1 (run_starts_consumers_only_when_all_subscribed
                       refusing_environment sample_run_config
                       eq_refl eq_refl eq_refl)
                [ {| Run.Subject := "events"; Run.Group := "" |} ]
                {| Run.Subject := "logs"; Run.Group := "workers" |} []
                eq_refl eq_refl eq_refl) as (H1 & H2 & _).
    exact (conj eq_refl (conj eq_refl (conj eq_refl (conj eq_refl
            (conj eq_refl (conj eq_refl (conj H1 H2))))))).
  - exact (conj eq_refl (conj eq_refl (conj eq_refl (conj eq_refl
            (proj1 (proj2 (run_starts_consumers_only_when_all_subscribed
                             sample_environment sample_run_config
                             eq_refl eq_refl eq_refl) eq_refl)))))).
Defined.

Lemma no_nil_message (msgs : list Msg) :
  existsb (fun m : option Msg =>
             match m with None => true | Some _ => false end)
    (map Some msgs) = false.
Proof. induction msgs as [|m msgs IH]; [reflexivity | exact IH]. Qed.

(** A subscription that delivers messages and nothing else: its consumer
    neither returns nor panics. *)
Lemma consumer_of_open_subscription env pr msgs :
  Run.feed env pr = map delivered msgs ->
  Run.consumer_done env pr = false /\ Run.consumer_panics env pr = false.
Proof.
  intros H. unfold Run.consumer_done, Run.consumer_panics.
  rewrite H, consumeForever_delivered. split; [reflexivity|].
  apply no_nil_message.
Qed.

(** A subscription that delivers messages and then an error other than a
    timeout: its consumer returns, and does not panic. *)
Lemma consumer_of_closed_subscription env pr msgs r err post :
  Run.feed env pr = map delivered msgs ++ r :: post ->
  ending_error r = Some err ->
  Run.consumer_done env pr = true /\ Run.consumer_panics env pr = false.
Proof.
  intros H Herr. unfold Run.consumer_done, Run.consumer_panics.
  rewrite H, (consumeForever_closed _ _ _ _ _ Herr).
  split; [reflexivity|]. apply no_nil_message.
Qed.

(** A subscription whose [sub.NextMsg] times out before any other error:
    its consumer starts a goroutine on a nil message. *)
Lemma consumer_of_timed_out_subscription env pr msgs post :
  Run.feed env pr = map delivered msgs ++ (None, Some ErrTimeout) :: post ->
  Run.consumer_panics env pr = true.
Proof.
  intros H. unfold Run.consumer_panics. rewrite H.
  rewrite (consumeForever_spawns_all _ _ (delivered_no_ending_error msgs)).
  cbn [fst snd consumeForever].
  destruct (consumeForever post {| natsConsumed := 0; esSent := 0 |})
    as [[st sp] s'].
  cbn [fst snd]. rewrite existsb_app. cbn [existsb].
  apply orb_true_r.
Qed.

Lemma existsb_false {A} (f : A -> bool) (l : list A) :
  (forall x, In x l -> f x = false) -> existsb f l = false.
Proof.
  intros H. induction l as [|x l IH]; [reflexivity|]. cbn.
  rewrite (H x (or_introl eq_refl)). apply IH.
  intros y Hy. apply H. now right.
Qed.

(** X15.  How long [run] lasts, once every subscription is made.  With no
    subject configured it shuts down straight away.  When every
    subscription delivers messages only, or messages and then an error
    other than a timeout, [run] stays blocked in [wg.Wait()] as long as one
    of them is of the first kind, and returns, and with it the process
    ends, when all are of the second.  And when the [sub.NextMsg] of one
    subscription times out before any other error, a goroutine is started
    on a nil message and the process is about to end by its panic.  This
    is [run] with its consumers; the dispatcher, which ends the process
    when it cannot reconnect, is left aside. *)
Theorem run_lasts_while_a_consumer_receives :
  forall (env : Run.environment) (config : Run.configuration),
  Run.loaded env = Some config ->
  Run.logging_ok env = true ->
  Run.nats_ok env = true ->
  forallb (Run.can_subscribe env) (Run.Subjects config) = true ->
  (Run.Subjects config = [] -> (Run.run env).1 = Run.RunReturned) /\
  ((forall pr,
      In pr (Run.Subjects config) ->
      exists msgs,
        Run.feed env pr = map delivered msgs \/
        exists r err post,
          Run.feed env pr = map delivered msgs ++ r :: post /\
          ending_error r = Some err) ->
   forall pr msgs,
     In pr (Run.Subjects config) ->
     Run.feed env pr = map delivered msgs ->
     (Run.run env).1 = Run.RunWaiting) /\
  ((forall pr,
      In pr (Run.Subjects config) ->
      exists msgs r err post,
        Run.feed env pr = map delivered msgs ++ r :: post /\
        ending_error r = Some err) ->
   (Run.run env).1 = Run.RunReturned) /\
  (forall pr msgs post,
     In pr (Run.Subjects config) ->
     Run.feed env pr = map delivered msgs ++ (None, Some ErrTimeout) :: post ->
     (Run.run env).1 = Run.RunPanics).
Proof.
  intros env config Hl Hg Hn Hall.
  rewrite (run_connected env config Hl Hg Hn).
  destruct (build_tailers_all (Run.can_subscribe env) (Run.Subjects config)
              Hall) as (steps & Hb & _).
  rewrite Hb. split; [|split; [|split]].
  - intros ->. reflexivity.
  - intros Hfeeds pr msgs Hin Hopen.
    rewrite existsb_false.
    + destruct (forallb (Run.consumer_done env) (Run.Subjects config))
        eqn:Hd; [|reflexivity].
      rewrite forallb_forall in Hd. specialize (Hd pr Hin).
      rewrite (proj1 (consumer_of_open_subscription env pr msgs Hopen)) in Hd.
      discriminate.
    + intros p Hp.
      destruct (Hfeeds p Hp) as [ms [Ho | (r & err & post & Hc & Herr)]].
      * apply (consumer_of_open_subscription env p ms Ho).
      * apply (consumer_of_closed_subscription env p ms r err post Hc Herr).
  - intros Hend.
    rewrite existsb_false.
    + replace (forallb (Run.consumer_done env) (Run.Subjects config))
        with true; [reflexivity|].
      symmetry. apply forallb_forall. intros p Hp.
      destruct (Hend p Hp) as (ms & r & err & post & Hc & Herr).
      apply (consumer_of_closed_subscription env p ms r err post Hc Herr).
    + intros p Hp.
      destruct (Hend p Hp) as (ms & r & err & post & Hc & Herr).
      apply (consumer_of_closed_subscription env p ms r err post Hc Herr).
  - intros pr msgs post Hin Hfeed.
    replace (existsb (Run.consumer_panics env) (Run.Subjects config))
      with true; [reflexivity|].
    symmetry. apply existsb_exists. exists pr. split; [exact Hin|].
    apply (consumer_of_timed_out_subscription env pr msgs post Hfeed).
Qed.

Lemma run_lasts_while_a_consumer_receives_witness :
  (Run.loaded delivering_environment = Some sample_run_config /\
   Run.logging_ok delivering_environment = true /\
   Run.nats_ok delivering_environment = true /\
   forallb (Run.can_subscribe delivering_environment)
     (Run.Subjects sample_run_config) = true /\
   In {| Run.Subject := "events"; Run.Group := "" |}
     (Run.Subjects sample_run_config) /\
   Run.feed delivering_environment
     {| Run.Subject := "events"; Run.Group := "" |}
   = map delivered [ {| Subject := "events"; Data := "a" |} ] /\
   (Run.run delivering_environment).1 = Run.RunWaiting) /\
  (Run.loaded closing_environment = Some sample_run_config /\
   Run.logging_ok closing_environment = true /\
   Run.nats_ok closing_environment = true /\
   forallb (Run.can_subscribe closing_environment)
     (Run.Subjects sample_run_config) = true /\
   (forall pr,
      In pr (Run.Subjects sample_run_config) ->
      exists msgs r err post,
        Run.feed closing_environment pr = map delivered msgs ++ r :: post /\
        ending_error r = Some err) /\
   (Run.run closing_environment).1 = Run.RunReturned) /\
  (Run.feed timing_out_environment
     {| Run.Subject := "events"; Run.Group := "" |}
   = map delivered [] ++ (None, Some ErrTimeout) :: [] /\
   (Run.run timing_out_environment).1 = Run.RunPanics).
Proof.
  assert (Hin : In {| Run.Subject := "events"; Run.Group := "" |}
                  (Run.Subjects sample_run_config)) by (left; reflexivity).
  assert (Ho : forall pr,
             In pr (Run.Subjects sample_run_config) ->
             exists msgs,
               Run.feed delivering_environment pr = map delivered msgs \/
               exists r err post,
                 Run.feed delivering_environment pr
                 = map delivered msgs ++ r :: post /\
                 ending_error r = Some err).
  { intros pr _.
    exists [ {| Subject := Run.Subject pr; Data := "a" |} ].
    left. reflexivity. }
  assert (Hc : forall pr,
             In pr (Run.Subjects sample_run_config) ->
             exists msgs r err post,
               Run.feed closing_environment pr
               = map delivered msgs ++ r :: post /\
               ending_error r = Some err).
  { intros pr _.
    exists [], (None, Some ErrConnectionClosed), ErrConnectionClosed, [].
    split; reflexivity. }
  split; [|split].
  - exact (conj eq_refl (conj eq_refl (conj eq_refl (conj eq_refl
            (conj Hin (conj eq_refl
               (proj1 (proj2 (run_lasts_while_a_consumer_receives
                                delivering_environment sample_run_config
                                eq_refl eq_refl eq_refl eq_refl))
                  Ho _ [ {| Subject := "events"; Data := "a" |} ]
                  Hin eq_refl))))))).
  - exact (conj eq_refl (conj eq_refl (conj eq_refl (conj eq_refl
            (conj Hc
               (proj1 (proj2 (proj2 (run_lasts_while_a_consumer_receives
                                closing_environment sample_run_config
                                eq_refl eq_refl eq_refl eq_refl))) Hc)))))).
  - exact (conj eq_refl
             (proj2 (proj2 (proj2 (run_lasts_while_a_consumer_receives
                                timing_out_environment sample_run_config
                                eq_refl eq_refl eq_refl eq_refl)))
                {| Run.Subject := "events"; Run.Group := "" |} [] []
                Hin eq_refl)).
Defined.

(** ** The document builder *)

Lemma merge_members_dom ms : forall (p : payload),
  dom (merge_members ms p) = dom p ∪ (list_to_set (map fst ms) : gset string).
Proof.
  unfold merge_members.
  induction ms as [|[k v] ms IH]; intros p; simpl.
  - apply set_eq. intros x. rewrite elem_of_union, elem_of_empty. tauto.
  - rewrite IH, dom_insert_L. apply set_eq. intros x.
    rewrite !elem_of_union. tauto.
Qed.

(** Storing the members keeps their names. *)
Lemma stored_members_names ms :
  map fst (Json.stored_members ms) = map fst ms.
Proof. unfold Json.stored_members. rewrite map_map. reflexivity. Qed.

(** Names are read as the decoder reads any string: two members named by
    the bytes 255 and 254, neither of them UTF-8, are both named by the
    replacement character, and make one field, with the value of the
    second. *)
Example buildDocument_coerces_ill_formed_names :
  Json.decode ill_formed_names_body
  = Some (Json.JObject
            [(Json.utf8_encode Json.replacement_char, Json.JNumber "1");
             (Json.utf8_encode Json.replacement_char, Json.JNumber "2")]) /\
  size (buildDocument ill_formed_names_body "events" sample_instant)
  = 4%nat /\
  buildDocument ill_formed_names_body "events" sample_instant
    !! Json.utf8_encode Json.replacement_char
  = Some (Json.JNumber "2").
Proof. repeat split; vm_compute; reflexivity. Qed.

(** X16.  When the body of a message is a JSON object, the fields of the
    document are the three reserved fields together with the names of the
    top-level members of the object, and nothing else. *)
Theorem buildDocument_fields_of_object :
  forall (data subject : string) (now : instant) ms,
  Json.decode data = Some (Json.JObject ms) ->
  dom (buildDocument data subject now)
  = ({[rawMsgKey; sourceKey; timestampKey]} : gset string)
    ∪ list_to_set (map fst ms).
Proof.
  intros data subject now ms H. unfold buildDocument, Unmarshal.
  rewrite H. cbn [snd].
  rewrite merge_members_dom, newPayload_dom, stored_members_names.
  reflexivity.
Qed.

Lemma buildDocument_fields_of_object_witness :
  Json.decode scenario5_body
  = Some (Json.JObject [("user", Json.JString "a");
                        ("raw_message", Json.JString "x")]) /\
  dom (buildDocument scenario5_body "events" sample_instant)
  = ({[rawMsgKey; sourceKey; timestampKey]} : gset string)
    ∪ list_to_set (map fst [("user", Json.JString "a");
                            ("raw_message", Json.JString "x")]).
Proof.
  assert (H : Json.decode scenario5_body
              = Some (Json.JObject [("user", Json.JString "a");
                                    ("raw_message", Json.JString "x")]))
    by (vm_compute; reflexivity).
  split; [exact H|].
  exact (buildDocument_fields_of_object scenario5_body "events"
           sample_instant _ H).
Defined.

(** ** The pipeline from end to end *)

Lemma send_batch_all_accepted config ix batch : forall client w,
  send_batch config ix client batch [] w
  = (Ok (client, []),
     {| stats := {| natsConsumed := natsConsumed (stats w);
                    esSent := Nat.iter (length batch) incr64
                                (esSent (stats w)) |};
        next_conn := next_conn w;
        trace := trace w ++ flat_map (accept_events config ix) batch |}).
Proof.
  induction batch as [|doc rest IH]; intros client w.
  - destruct w as [[c s] n t]. cbn. now rewrite app_nil_r.
  - rewrite send_batch_cons, send_doc_accepted by exact I.
    cbn [fst snd tl]. rewrite IH.
    cbn [stats natsConsumed esSent next_conn trace length flat_map].
    f_equal. f_equal.
    + f_equal. rewrite <- Nat.iter_succ_r. reflexivity.
    + unfold accept_events. rewrite <- !app_assoc. reflexivity.
Qed.

Lemma sendToES_all_accepted config batch w :
  exists evs n,
    sendToES config batch [] w
    = (Ok [],
       {| stats := {| natsConsumed := natsConsumed (stats w);
                      esSent := Nat.iter (length batch) incr64
                                  (esSent (stats w)) |};
          next_conn := n;
          trace := trace w ++ evs |}) /\
    call_results evs = map (fun x => (x, true)) batch.
Proof.
  destruct batch as [|doc rest].
  - exists [], (next_conn w). destruct w as [[c s] n t]. cbn.
    rewrite app_nil_r. split; reflexivity.
  - unfold sendToES. cbn [length Nat.eqb].
    unfold bind at 1. rewrite connectToES_eq.
    unfold NewBulkIndexerErrors, bind, log, emit, ret.
    cbn -[send_batch]. rewrite send_batch_all_accepted.
    cbn -[Nat.iter flat_map].
    exists (start_events config (next_conn w)
            ++ flat_map (accept_events config
                           (dispatch_indexer config (next_conn w)))
                 (doc :: rest)
            ++ stop_events (dispatch_indexer config (next_conn w))),
      (S (next_conn w)).
    split.
    + f_equal. f_equal.
      unfold start_events, stop_events, connect_events, dispatch_indexer.
      rewrite <- !app_assoc. reflexivity.
    + rewrite !call_results_app, accept_events_calls.
      change (call_results (start_events config (next_conn w)))
        with (@nil (payload * bool)).
      change (call_results
                (stop_events (dispatch_indexer config (next_conn w))))
        with (@nil (payload * bool)).
      now rewrite app_nil_r.
Qed.

Lemma run_dispatches_all_accepted config ds : forall w,
  exists w' evs,
    run_dispatches config ds w = (Ok tt, w') /\
    trace w' = trace w ++ evs /\
    call_results evs = map (fun x => (x, true)) (concat (map docs ds)) /\
    natsConsumed (stats w') = natsConsumed (stats w) /\
    esSent (stats w')
    = Nat.iter (length (concat (map docs ds))) incr64 (esSent (stats w)).
Proof.
  induction ds as [|d ds IH]; intros w.
  - exists w, []. cbn. rewrite app_nil_r. repeat split.
  - cbn [run_dispatches].
    destruct (sendToES_all_accepted config (docs d) w)
      as (evs1 & n1 & Hrun & Hc1).
    rewrite Hrun.
    match goal with
    | |- context [run_dispatches config ds ?w1] =>
        destruct (IH w1) as (w' & evs2 & Hr & Ht & Hc2 & Hn & Hs)
    end.
    exists w', (evs1 ++ evs2). split; [exact Hr|].
    cbn [trace stats natsConsumed esSent] in *.
    split; [rewrite Ht; now rewrite app_assoc|].
    split; [|split].
    + cbn [map concat]. rewrite call_results_app, Hc1, Hc2, map_app.
      reflexivity.
    + exact Hn.
    + rewrite Hs. cbn [map concat]. rewrite length_app, iter_add.
      reflexivity.
Qed.

Lemma consumer_documents_all now msgs :
  consumer_documents now (map Some msgs)
  = Some (map (fun m => buildDocument (Data m) (Subject m) now) msgs).
Proof.
  induction msgs as [|m msgs IH]; [reflexivity|].
  cbn [map consumer_documents fold_right] in *.
  unfold consumer_documents in IH. rewrite IH. reflexivity.
Qed.

Lemma batchAndSend_loop_app config cases1 cases2 : forall batch,
  batchAndSend_loop config batch (cases1 ++ cases2)
  = let '(ds1, b1) := batchAndSend_loop config batch cases1 in
    let '(ds2, b2) := batchAndSend_loop config b1 cases2 in
    (ds1 ++ ds2, b2).
Proof.
  induction cases1 as [|c rest IH]; intros batch.
  - cbn. destruct (batchAndSend_loop config batch cases2). reflexivity.
  - cbn [app batchAndSend_loop].
    destruct (batchAndSend_iter config batch c) as [d b'].
    rewrite IH.
    destruct (batchAndSend_loop config b' rest) as [ds1 b1].
    destruct (batchAndSend_loop config b1 cases2) as [ds2 b2].
    destruct d; reflexivity.
Qed.

Lemma incoming_docs_all ps :
  incoming_docs (map Incoming ps ++ [TimerFired]) = ps.
Proof.
  unfold incoming_docs. rewrite omap_app. cbn. rewrite app_nil_r.
  induction ps as [|p ps IH]; [reflexivity|]. cbn. now rewrite IH.
Qed.

(** X17.  From end to end, along the schedule in which every message is
    converted, batched and dispatched in turn, the timer fires once the
    last has arrived, and the backend accepts every call: with a batch size
    that is not negative, every message received is submitted to the
    backend exactly once, as the document built from it, in the order of
    receipt; the sent counter has been incremented once per message, and
    the consumed counter is still zero. *)
Theorem pipeline_submits_every_message_once :
  forall (config : elasticConfig) (now : instant) (msgs : list Msg),
  0 <= BatchSize config ->
  exists w',
    run_schedule config now (map (fun m => (Some m, None)) msgs)
    = Some (Ok tt, w') /\
    call_results (trace w')
    = map (fun m => (buildDocument (Data m) (Subject m) now, true)) msgs /\
    natsConsumed (stats w') = 0 /\
    esSent (stats w') = Nat.iter (length msgs) incr64 0.
Proof.
  intros config now msgs Hsize. unfold run_schedule.
  assert (Hpre : Forall (fun r => ending_error r = None)
                   (map (fun m : Msg => (Some m, @None nats_error)) msgs)).
  { apply Forall_forall. intros r Hr. apply list_elem_of_In in Hr.
    apply in_map_iff in Hr. destruct Hr as (m & <- & _). reflexivity. }
  rewrite (consumeForever_receiving _ (stats initial_world) Hpre).
  rewrite map_map. cbn [fst].
  rewrite consumer_documents_all.
  set (ps := map (fun m => buildDocument (Data m) (Subject m) now) msgs).
  unfold batchAndSend.
  replace (BatchSize config <? 0) with false
    by (symmetry; apply Z.ltb_ge; lia).
  pose proof (batchAndSend_loop_conserves config
                (map Incoming ps ++ [TimerFired]) []) as Hcons.
  rewrite incoming_docs_all in Hcons.
  rewrite batchAndSend_loop_app in Hcons |- *.
  destruct (batchAndSend_loop config [] (map Incoming ps)) as [ds1 b1].
  cbn [batchAndSend_loop batchAndSend_iter] in Hcons |- *.
  cbn [fst snd] in Hcons. rewrite app_nil_r in Hcons.
  destruct (run_dispatches_all_accepted config
              (ds1 ++ [{| why := ByTimeout; docs := b1 |}])
              {| stats := stats initial_world;
                 next_conn := next_conn initial_world;
                 trace := trace initial_world |})
    as (w' & evs & Hr & Ht & Hc & Hn & Hs).
  exists w'. split; [rewrite Hr; reflexivity|].
  cbn in Ht, Hn, Hs. rewrite Ht, Hc, Hn, Hs, Hcons.
  cbn [app]. subst ps. rewrite map_map, length_map. repeat split.
Qed.

Lemma pipeline_submits_every_message_once_witness :
  0 <= BatchSize sample_config /\
  exists w',
    run_schedule sample_config sample_instant
      (map (fun m => (Some m, None))
         [ {| Subject := "events"; Data := "a" |};
           {| Subject := "events"; Data := "b" |};
           {| Subject := "events"; Data := "c" |} ])
    = Some (Ok tt, w') /\
    call_results (trace w')
    = map (fun m => (buildDocument (Data m) (Subject m) sample_instant, true))
        [ {| Subject := "events"; Data := "a" |};
          {| Subject := "events"; Data := "b" |};
          {| Subject := "events"; Data := "c" |} ] /\
    natsConsumed (stats w') = 0 /\
    esSent (stats w') = Nat.iter 3 incr64 0.
Proof.
  assert (H : 0 <= BatchSize sample_config) by (simpl; lia).
  split; [exact H|].
  exact (pipeline_submits_every_message_once sample_config sample_instant
           [ {| Subject := "events"; Data := "a" |};
             {| Subject := "events"; Data := "b" |};
             {| Subject := "events"; Data := "c" |} ] H).
Defined.

(** ** The batching loop without a timeout *)


